(** * AgentMemoryClient: the token lifecycle of examples/python-client.py

    A shallow embedding of the credential handling of [AgentMemoryClient]
    (login, refresh_access_token, _ensure_authenticated, _get_headers,
    logout) and the properties of its token lifecycle.

    Modelling conventions.
    - The instance fields of [self] are the record [client].
    - Python exceptions are the [Raise] outcome of a state-and-error
      computation; the fields assigned before a [raise] keep their values.
    - The outside world is the [env]: the wall clock read by [time.time()]
      and the server answering [requests.post].
    - Timestamps are binary64 floats, as [time.time()] returns them, and
      [+] and [>=] on them are the operations of IEEE 754.
    - [response.json()] raises on a body that is not JSON.  A decoded body
      is a JSON object or some other JSON value; under each key the client
      subscripts, an object has nothing, [null], or a value of the type the
      API documents: a string for the tokens and the user name, an integer
      number of seconds for the lifetimes, an object for the user.  A
      subscript raises KeyError on a key that is not there and TypeError on
      a value that is not an object; [time.time() + data["expires_in"]]
      raises TypeError on [null] and OverflowError on an integer that no
      float can hold. *)

From Stdlib Require Import ZArith String List Bool Lia Arith.
From Stdlib Require Import DecimalString Floats.
Import ListNotations.
Local Open Scope string_scope.
Local Open Scope Z_scope.

(** ** Data *)

(** The instance fields set by [__init__]. *)
Record client : Type := mkClient {
  base_url : string;
  access_token : option string;
  refresh_token : option string;
  token_expires_at : float
}.

(** What a JSON object has under one key: nothing, [null], or a value. *)
Inductive field (A : Type) : Type :=
| Missing
| Null
| Value (a : A).
Arguments Missing {A}.
Arguments Null {A}.
Arguments Value {A} a.

(** The Python value a subscript gives for a key that is there: [None] for
    [null]. *)
Definition field_value {A : Type} (f : field A) : option A :=
  match f with
  | Value a => Some a
  | _ => None
  end.

(** The object under ["user"]. *)
Record user : Type := mkUser {
  u_username : field string
}.

(** A JSON object, by the keys the client reads: ["access_token"],
    ["refresh_token"], ["expires_in"], ["refresh_expires_in"] and
    ["user"]["username"] (the last two are read by [login] only). *)
Record body : Type := mkBody {
  j_access_token : field string;
  j_refresh_token : field string;
  j_expires_in : field Z;
  j_refresh_expires_in : field Z;
  j_user : field user
}.

(** What [response.json()] returns: a JSON object, or a JSON value that is
    not an object (an array, a string, a number, [null]). *)
Inductive document : Type :=
| NotAnObject
| Object (d : body).

(** [requests.Response]: [json] is what [response.json()] returns, [None]
    when the body does not decode. *)
Record response : Type := mkResponse {
  status_code : Z;
  text : string;
  json : option document
}.

Inductive method : Type := GET | POST.

(** One outbound HTTP request: the arguments of [requests.post]. A JSON
    value of the request body is a string or [null]. *)
Record request : Type := mkRequest {
  r_method : method;
  r_url : string;
  r_headers : list (string * string);
  r_json : list (string * option string)
}.

(** What the transport gives back: a response, or no response at all
    (connection refused, timeout), which [requests] raises. *)
Inductive reply : Type :=
| Responds (r : response)
| Unreachable.

(** The exceptions that can leave the client's methods. *)
Inductive exn : Type :=
| PyException (msg : string)      (* raise Exception(msg) in the client *)
| ConnectionError                 (* raised by requests.post *)
| JSONDecodeError                 (* raised by response.json() *)
| KeyError (key : string)         (* data[key], no such key *)
| TypeError                       (* subscript of a non-object, float + None *)
| OverflowError.                  (* float + int, int too large for a float *)

Inductive result (A : Type) : Type :=
| Return (a : A)
| Raise (e : exn).
Arguments Return {A} a.
Arguments Raise {A} e.

(** The environment of a run: the n-th reading of [time.time()] and the
    server's answer to the n-th request. *)
Record env : Type := mkEnv {
  clock : nat -> float;
  server : nat -> request -> reply
}.

(** The observable effects so far: how many times the clock was read, the
    requests sent (latest first) and the lines printed (latest first). *)
Record world : Type := mkWorld {
  ticks : nat;
  sent : list request;
  stdout : list string
}.

Definition world0 : world := mkWorld 0 [] [].

(** ** The state-and-exception monad of the client's methods *)

Definition M (A : Type) : Type :=
  env -> client -> world -> result A * client * world.

Definition ret {A} (a : A) : M A := fun _ c w => (Return a, c, w).

Definition raise {A} (e : exn) : M A := fun _ c w => (Raise e, c, w).

Definition bind {A B} (m : M A) (k : A -> M B) : M B :=
  fun E c w =>
    match m E c w with
    | (Return a, c', w') => k a E c' w'
    | (Raise e, c', w') => (Raise e, c', w')
    end.

Notation "x <- m ;; k" := (bind m (fun x => k))
  (at level 61, m at next level, right associativity).
Notation "m ;; k" := (bind m (fun _ => k))
  (at level 61, right associativity).

Definition get_self : M client := fun _ c w => (Return c, c, w).

Definition set_access_token (v : option string) : M unit :=
  fun _ c w =>
    (Return tt, mkClient (base_url c) v (refresh_token c) (token_expires_at c), w).

Definition set_refresh_token (v : option string) : M unit :=
  fun _ c w =>
    (Return tt, mkClient (base_url c) (access_token c) v (token_expires_at c), w).

Definition set_token_expires_at (v : float) : M unit :=
  fun _ c w =>
    (Return tt, mkClient (base_url c) (access_token c) (refresh_token c) v, w).

(** [time.time()]: the next reading of the clock. *)
Definition time_time : M float :=
  fun E c w =>
    (Return (clock E (ticks w)), c, mkWorld (S (ticks w)) (sent w) (stdout w)).

Definition print (line : string) : M unit :=
  fun _ c w => (Return tt, c, mkWorld (ticks w) (sent w) (line :: stdout w)).

(** [requests.post] in its two halves: the request leaves (and is numbered),
    then the caller blocks until the answer to that request arrives. *)
Definition send (req : request) : M nat :=
  fun _ c w =>
    (Return (length (sent w)), c, mkWorld (ticks w) (req :: sent w) (stdout w)).

Definition receive (n : nat) (req : request) : M response :=
  fun E c w =>
    match server E n req with
    | Responds r => (Return r, c, w)
    | Unreachable => (Raise ConnectionError, c, w)
    end.

Definition requests_post (url : string) (headers : list (string * string))
    (payload : list (string * option string)) : M response :=
  let req := mkRequest POST url headers payload in
  n <- send req ;; receive n req.

(** [response.json()]. *)
Definition response_json (r : response) : M document :=
  match json r with
  | Some data => ret data
  | None => raise JSONDecodeError
  end.

(** ** Python values *)

(** Truth value of an [Optional[str]]: [None] and the empty string are
    false. *)
Definition truthy (t : option string) : bool :=
  match t with
  | Some s => negb (String.eqb s EmptyString)
  | None => false
  end.

(** [str(t)] of an [Optional[str]], as an f-string renders it. *)
Definition py_str (t : option string) : string :=
  match t with
  | Some s => s
  | None => "None"
  end.

(** [str(n)] of an integer. *)
Definition str_int (n : Z) : string := NilZero.string_of_int (Z.to_int n).

(** [str(n)] of an integer or [None]. *)
Definition py_str_int (n : option Z) : string :=
  match n with
  | Some z => str_int z
  | None => "None"
  end.

(** [data[key]]: TypeError when [data] is not an object, KeyError when the
    object has no such key. *)
Definition getitem {A : Type} (data : document) (key : string)
    (get : body -> field A) : M (option A) :=
  match data with
  | NotAnObject => raise TypeError
  | Object d =>
      match get d with
      | Missing => raise (KeyError key)
      | Null => ret None
      | Value a => ret (Some a)
      end
  end.

(** [data['user']['username']]. *)
Definition get_username (data : document) : M (option string) :=
  u <- getitem data "user" j_user ;;
  match u with
  | None => raise TypeError
  | Some usr =>
      match u_username usr with
      | Missing => raise (KeyError "username")
      | Null => ret None
      | Value s => ret (Some s)
      end
  end.

(** The float nearest to an integer (ties to even), as [float + int]
    converts its right operand; [None] when the integer is too large. *)
Definition float_of_int (z : Z) : option float :=
  let f := SF2Prim (binary_normalize prec emax z 0 false) in
  if is_infinity f then None else Some f.

(** [x + v] for a float [x] and [v] an integer or [None]. *)
Definition float_add (x : float) (v : option Z) : M float :=
  match v with
  | None => raise TypeError
  | Some z =>
      match float_of_int z with
      | None => raise OverflowError
      | Some f => ret (x + f)%float
      end
  end.

(** ** AgentMemoryClient *)

(** [__init__]; the initial [token_expires_at] is the integer 0, which
    compares with a float as 0.0 does. *)
Definition init (url : string) : client := mkClient url None None 0%float.

Definition default_base_url : string := "http://localhost:3000".

(** The request of [login] (lines 33-40). *)
Definition login_request (self : client) (username password tenant_id : string)
    : request :=
  mkRequest POST (base_url self ++ "/auth/login") []
    [("username", Some username);
     ("password", Some password);
     ("tenant_id", Some tenant_id)].

(** [login]. *)
Definition login (username password tenant_id : string) : M unit :=
  self <- get_self ;;
  response <- requests_post (base_url self ++ "/auth/login") []
                [("username", Some username);
                 ("password", Some password);
                 ("tenant_id", Some tenant_id)] ;;
  if negb (status_code response =? 200) then
    raise (PyException ("Login failed: " ++ text response))
  else
    data <- response_json response ;;
    a <- getitem data "access_token" j_access_token ;;
    set_access_token a ;;
    r <- getitem data "refresh_token" j_refresh_token ;;
    set_refresh_token r ;;
    now <- time_time ;;
    e <- getitem data "expires_in" j_expires_in ;;
    t <- float_add now e ;;
    set_token_expires_at t ;;
    name <- get_username data ;;
    print ("✅ Logged in as " ++ py_str name) ;;
    e' <- getitem data "expires_in" j_expires_in ;;
    print ("   Access token expires in " ++ py_str_int e' ++ "s") ;;
    re <- getitem data "refresh_expires_in" j_refresh_expires_in ;;
    print ("   Refresh token expires in " ++ py_str_int re ++ "s").

(** The request of [refresh_access_token] (lines 64-67). *)
Definition refresh_request (self : client) : request :=
  mkRequest POST (base_url self ++ "/auth/token/refresh") []
    [("refresh_token", refresh_token self)].

(** [refresh_access_token] from the moment its request has left (the rest of
    line 64 to line 78). *)
Definition refresh_finish (n : nat) (req : request) : M unit :=
  response <- receive n req ;;
  if negb (status_code response =? 200) then
    raise (PyException ("Token refresh failed: " ++ text response))
  else
    data <- response_json response ;;
    a <- getitem data "access_token" j_access_token ;;
    set_access_token a ;;
    r <- getitem data "refresh_token" j_refresh_token ;;
    set_refresh_token r ;;
    now <- time_time ;;
    e <- getitem data "expires_in" j_expires_in ;;
    t <- float_add now e ;;
    set_token_expires_at t ;;
    print "✅ Access token refreshed" ;;
    print "   New refresh token issued (old token revoked)".

(** [refresh_access_token]. *)
Definition refresh_access_token : M unit :=
  self <- get_self ;;
  if negb (truthy (refresh_token self)) then
    raise (PyException "No refresh token available")
  else
    n <- send (refresh_request self) ;;
    refresh_finish n (refresh_request self).

(** The test of line 82, [not self.access_token or time.time() >=
    self.token_expires_at]; [or] reads the clock only when the token is
    true. *)
Definition needs_refresh : M bool :=
  self <- get_self ;;
  if negb (truthy (access_token self)) then ret true
  else
    now <- time_time ;;
    ret (token_expires_at self <=? now)%float.

(** [_ensure_authenticated]. *)
Definition _ensure_authenticated : M unit :=
  stale <- needs_refresh ;;
  if stale then refresh_access_token else ret tt.

(** The dictionary returned by [_get_headers]. *)
Definition bearer_headers (self : client) : list (string * string) :=
  [("Content-Type", "application/json");
   ("Authorization", "Bearer " ++ py_str (access_token self))].

(** [_get_headers]: the spec's ensure_valid. *)
Definition _get_headers : M (list (string * string)) :=
  _ensure_authenticated ;;
  self <- get_self ;;
  ret (bearer_headers self).

(** The request of [logout] (lines 163-167). *)
Definition revoke_request (self : client) (headers : list (string * string))
    : request :=
  mkRequest POST (base_url self ++ "/auth/token/revoke") headers
    [("refresh_token", refresh_token self)].

(** [logout]. The keyword arguments of [requests.post] are evaluated in
    order: [headers] (which may refresh and rotate the tokens) before
    [json]. *)
Definition logout : M unit :=
  self <- get_self ;;
  if negb (truthy (refresh_token self)) then ret tt
  else
    headers <- _get_headers ;;
    self' <- get_self ;;
    response <- requests_post (base_url self ++ "/auth/token/revoke") headers
                  [("refresh_token", refresh_token self')] ;;
    (if status_code response =? 200
     then print "✅ Logged out successfully" else ret tt) ;;
    set_access_token None ;;
    set_refresh_token None.

(** ** Sequences of calls *)

(** The four operations a caller can invoke. *)
Inductive op : Type :=
| Login (username password tenant_id : string)
| Refresh
| EnsureValid
| Logout.

Definition exec (o : op) : M unit :=
  match o with
  | Login u p t => login u p t
  | Refresh => refresh_access_token
  | EnsureValid => _get_headers ;; ret tt
  | Logout => logout
  end.

(** A caller that invokes the operations one after the other on the same
    client and goes on after an exception, as [main]'s [except] would let
    it. *)
Fixpoint run (E : env) (ops : list op) (c : client) (w : world)
    : client * world :=
  match ops with
  | [] => (c, w)
  | o :: rest =>
      match exec o E c w with
      | (_, c', w') => run E rest c' w'
      end
  end.

(** ** Two callers of [_get_headers] on one client

    The client has no lock, and a thread inside [requests.post] waits for
    the network while other threads run.  A call of [_get_headers] is cut
    at that point: first everything up to the moment the refresh request
    has left, then everything from the arrival of its answer. *)

Inductive thread : Type :=
| Ready
| Blocked (n : nat) (req : request)
| Done (r : result (list (string * string))).

(** The outcome of a call, exception included, as the thread's final
    state. *)
Definition finish (m : M (list (string * string))) (E : env) (c : client)
    (w : world) : thread * client * world :=
  match m E c w with
  | (r, c', w') => (Done r, c', w')
  end.

Definition thread_step (E : env) (t : thread) (c : client) (w : world)
    : thread * client * world :=
  match t with
  | Ready =>
      match needs_refresh E c w with
      | (Return true, c1, w1) =>
          if negb (truthy (refresh_token c1)) then
            (Done (Raise (PyException "No refresh token available")), c1, w1)
          else
            match send (refresh_request c1) E c1 w1 with
            | (Return n, c2, w2) => (Blocked n (refresh_request c1), c2, w2)
            | (Raise e, c2, w2) => (Done (Raise e), c2, w2)
            end
      | (Return false, c1, w1) =>
          finish (self <- get_self ;; ret (bearer_headers self)) E c1 w1
      | (Raise e, c1, w1) => (Done (Raise e), c1, w1)
      end
  | Blocked n req =>
      finish (refresh_finish n req ;;
              self <- get_self ;; ret (bearer_headers self)) E c w
  | Done r => (Done r, c, w)
  end.

Inductive caller : Type := First | Second.

(** The two threads, the shared client and the world. *)
Record system : Type := mkSystem {
  first : thread;
  second : thread;
  shared : client;
  outside : world
}.

Definition system_step (E : env) (who : caller) (s : system) : system :=
  match who with
  | First =>
      match thread_step E (first s) (shared s) (outside s) with
      | (t, c, w) => mkSystem t (second s) c w
      end
  | Second =>
      match thread_step E (second s) (shared s) (outside s) with
      | (t, c, w) => mkSystem (first s) t c w
      end
  end.

(** A schedule names the thread that takes each next step. *)
Fixpoint schedule (E : env) (order : list caller) (s : system) : system :=
  match order with
  | [] => s
  | who :: rest => schedule E rest (system_step E who s)
  end.

Definition is_refresh (self : client) (req : request) : bool :=
  String.eqb (r_url req) (base_url self ++ "/auth/token/refresh").

(** The number of refresh exchanges among the requests sent. *)
Definition refresh_count (self : client) (w : world) : nat :=
  length (filter (is_refresh self) (sent w)).

(** ** Outcomes, spelled out

    The states and worlds the methods end in, used to state what each
    method does. *)

(** The fields once line 46 (or 73) has assigned the access token of the
    body [d]. *)
Definition access_assigned (c : client) (d : body) : client :=
  mkClient (base_url c) (field_value (j_access_token d)) (refresh_token c)
    (token_expires_at c).

(** The fields once line 47 (or 74) has assigned the refresh token too. *)
Definition tokens_assigned (c : client) (d : body) : client :=
  mkClient (base_url c) (field_value (j_access_token d))
    (field_value (j_refresh_token d)) (token_expires_at c).

(** The fields once line 48 (or 75) has assigned the expiry [t]. *)
Definition granted (c : client) (d : body) (t : float) : client :=
  mkClient (base_url c) (field_value (j_access_token d))
    (field_value (j_refresh_token d)) t.

(** The world once a request has left. *)
Definition after_send (req : request) (w : world) : world :=
  mkWorld (ticks w) (req :: sent w) (stdout w).

(** The world once the clock has been read. *)
Definition after_tick (w : world) : world :=
  mkWorld (S (ticks w)) (sent w) (stdout w).

(** What lines 46-48 (and 73-75) do with the decoded body [data]: the
    three fields are assigned one after the other, and an exception leaves
    those already assigned. *)
Definition stored (E : env) (data : document) (c : client) (w : world)
    : result unit * client * world :=
  match data with
  | NotAnObject => (Raise TypeError, c, w)
  | Object d =>
      match j_access_token d with
      | Missing => (Raise (KeyError "access_token"), c, w)
      | _ =>
          match j_refresh_token d with
          | Missing => (Raise (KeyError "refresh_token"), access_assigned c d, w)
          | _ =>
              match j_expires_in d with
              | Missing =>
                  (Raise (KeyError "expires_in"), tokens_assigned c d,
                   after_tick w)
              | Null => (Raise TypeError, tokens_assigned c d, after_tick w)
              | Value e =>
                  match float_of_int e with
                  | None =>
                      (Raise OverflowError, tokens_assigned c d, after_tick w)
                  | Some f =>
                      (Return tt, granted c d (clock E (ticks w) + f)%float,
                       after_tick w)
                  end
              end
          end
      end
  end.

(** The lines a refresh that returns has printed. *)
Definition refresh_lines (out : list string) : list string :=
  "   New refresh token issued (old token revoked)"
    :: "✅ Access token refreshed" :: out.

Definition refreshed_world (c : client) (w : world) : world :=
  mkWorld (S (ticks w)) (refresh_request c :: sent w)
    (refresh_lines (stdout w)).

(** What refresh_access_token does, by the answer to its request. *)
Definition refresh_outcome (E : env) (c : client) (w : world)
    : result unit * client * world :=
  if negb (truthy (refresh_token c)) then
    (Raise (PyException "No refresh token available"), c, w)
  else
    match server E (length (sent w)) (refresh_request c) with
    | Unreachable =>
        (Raise ConnectionError, c, after_send (refresh_request c) w)
    | Responds r =>
        if status_code r =? 200 then
          match json r with
          | Some data =>
              match stored E data c (after_send (refresh_request c) w) with
              | (Return _, c', w') =>
                  (Return tt, c',
                   mkWorld (ticks w') (sent w') (refresh_lines (stdout w')))
              | (Raise e, c', w') => (Raise e, c', w')
              end
          | None =>
              (Raise JSONDecodeError, c, after_send (refresh_request c) w)
          end
        else
          (Raise (PyException ("Token refresh failed: " ++ text r)), c,
           after_send (refresh_request c) w)
    end.

(** The token is live at the check of line 82: it is there and the test
    [time.time() >= self.token_expires_at] is false. *)
Definition live (E : env) (c : client) (w : world) : bool :=
  truthy (access_token c)
  && negb (token_expires_at c <=? clock E (ticks w))%float.

(** The world in which line 83 runs: the clock was read unless the access
    token was absent. *)
Definition checked (c : client) (w : world) : world :=
  if truthy (access_token c) then after_tick w else w.

(** What lines 50-52 of login print on the body [d], and the exception that
    stops them. *)
Definition announced (d : body) (out : list string)
    : result unit * list string :=
  match j_user d with
  | Missing => (Raise (KeyError "user"), out)
  | Null => (Raise TypeError, out)
  | Value u =>
      match u_username u with
      | Missing => (Raise (KeyError "username"), out)
      | _ =>
          let out1 :=
            ("✅ Logged in as " ++ py_str (field_value (u_username u))) :: out
          in
          match j_expires_in d with
          | Missing => (Raise (KeyError "expires_in"), out1)
          | _ =>
              let out2 :=
                ("   Access token expires in "
                   ++ py_str_int (field_value (j_expires_in d)) ++ "s")
                  :: out1
              in
              match j_refresh_expires_in d with
              | Missing => (Raise (KeyError "refresh_expires_in"), out2)
              | _ =>
                  (Return tt,
                   ("   Refresh token expires in "
                      ++ py_str_int (field_value (j_refresh_expires_in d))
                      ++ "s") :: out2)
              end
          end
      end
  end.

(** The body lets lines 50-52 print to their end. *)
Definition announces (d : body) : Prop :=
  (exists usr, j_user d = Value usr /\ u_username usr <> Missing)
  /\ j_refresh_expires_in d <> Missing.

(** The world after a login that returns on the body [d]. *)
Definition logged_in_world (c : client) (u p t : string) (d : body)
    (w : world) : world :=
  mkWorld (S (ticks w)) (login_request c u p t :: sent w)
    (snd (announced d (stdout w))).

(** What login does, by the answer to its request. *)
Definition login_outcome (E : env) (u p t : string) (c : client) (w : world)
    : result unit * client * world :=
  match server E (length (sent w)) (login_request c u p t) with
  | Unreachable =>
      (Raise ConnectionError, c, after_send (login_request c u p t) w)
  | Responds r =>
      if status_code r =? 200 then
        match json r with
        | Some data =>
            match stored E data c (after_send (login_request c u p t) w) with
            | (Return _, c', w') =>
                match data with
                | Object d =>
                    (fst (announced d (stdout w')), c',
                     mkWorld (ticks w') (sent w')
                       (snd (announced d (stdout w'))))
                | NotAnObject => (Raise TypeError, c', w')
                end
            | (Raise e, c', w') => (Raise e, c', w')
            end
        | None =>
            (Raise JSONDecodeError, c, after_send (login_request c u p t) w)
        end
      else
        (Raise (PyException ("Login failed: " ++ text r)), c,
         after_send (login_request c u p t) w)
  end.

(** The client once logout has cleared the tokens (lines 172-173). *)
Definition cleared (c : client) : client :=
  mkClient (base_url c) None None (token_expires_at c).

(** The spec's Unauthenticated state: neither token is held. *)
Definition unauthenticated (c : client) : Prop :=
  access_token c = None /\ refresh_token c = None.

(** Some of the assignments of lines 46-48 (or 73-75) have been made on
    [c] from the body [d], in their order; the expiry, if assigned, is the
    float sum of a clock reading numbered from [lo] to below [hi] and the
    [expires_in] of [d]. *)
Definition partly_granted (E : env) (lo hi : nat) (c : client) (d : body)
    (c' : client) : Prop :=
  j_access_token d <> Missing
  /\ ((c' = access_assigned c d /\ j_refresh_token d = Missing)
      \/ (j_refresh_token d <> Missing
          /\ (c' = tokens_assigned c d
              \/ exists (e : Z) (f : float) (n : nat),
                   j_expires_in d = Value e
                   /\ float_of_int e = Some f
                   /\ (lo <= n < hi)%nat
                   /\ c' = granted c d (clock E n + f)%float))).

(** ** The requests sent, in their order *)

(** The request numbered [n]: requests are numbered from 0 as they leave. *)
Definition nth_sent (w : world) (n : nat) : option request :=
  nth_error (rev (sent w)) n.

(** The requests whose 200 response the client reads tokens from. *)
Definition token_request (req : request) : Prop :=
  (exists c u p t, req = login_request c u p t)
  \/ (exists c, req = refresh_request c).

(** Among the requests of [w], the one numbered [n] is the token request
    [req], and the server answers it with the 200 response [r], whose body
    is the JSON object [d]. *)
Definition exchange (E : env) (w : world) (n : nat) (req : request)
    (r : response) (d : body) : Prop :=
  nth_sent w n = Some req
  /\ token_request req
  /\ server E n req = Responds r
  /\ status_code r = 200
  /\ json r = Some (Object d).

(** What an operation started on [c] in the world [w] has done to the
    fields when it leaves [c'] in [w']: nothing, or some of the
    assignments of lines 46-48 (or 73-75) from the body of the exchange it
    made, the first request it sent. *)
Definition token_effect (E : env) (c : client) (w : world) (c' : client)
    (w' : world) : Prop :=
  c' = c
  \/ exists (req : request) (r : response) (d : body),
       exchange E w' (length (sent w)) req r d
       /\ partly_granted E (ticks w) (ticks w') c d c'.

(** ** The pairing of the two tokens *)

(** access_token is present exactly when refresh_token is, present being
    what the guards of lines 61, 82 and 160 test. *)
Definition paired (c : client) : Prop :=
  truthy (access_token c) = truthy (refresh_token c).

(** In the exchanges numbered [n0] or later among the requests of [w], a
    body that has an access_token has a refresh_token too, and the two are
    both present (non-empty strings) or both absent (null or empty). *)
Definition delivered_together (E : env) (n0 : nat) (w : world) : Prop :=
  forall (n : nat) (req : request) (r : response) (d : body),
    (n0 <= n)%nat ->
    exchange E w n req r d ->
    j_access_token d = Missing
    \/ (j_refresh_token d <> Missing
        /\ truthy (field_value (j_access_token d))
           = truthy (field_value (j_refresh_token d))).

(** ** Which refresh tokens travel *)






(** ** Concrete runs

    Servers and clocks for the examples below. *)

(** The body granting the token pair [a], [r] for [life] seconds. *)
Definition tokens (a r : string) (life : Z) : body :=
  mkBody (Value a) (Value r) (Value life) (Value 3600)
    (Value (mkUser (Value "testuser"))).

(** A 200 response granting the token pair [a], [r] for [life] seconds. *)
Definition grant (a r : string) (life : Z) : response :=
  mkResponse 200 "ok" (Some (Object (tokens a r life))).

(** A 401 response. *)
Definition denied : response := mkResponse 401 "invalid token" None.

(** The clock reads 100 at first and 200 from then on. *)
Definition clock_100_200 (n : nat) : float :=
  match n with
  | O => 100%float
  | S _ => 200%float
  end.

(** The scenario of the spec: login grants a1/r1 for 1 unit, the refresh
    grants a2/r2 for 60 units, anything later is answered 200 without a
    body. *)
Definition scenario : env :=
  mkEnv clock_100_200
    (fun n _ =>
       match n with
       | 0%nat => Responds (grant "a1" "r1" 1)
       | 1%nat => Responds (grant "a2" "r2" 60)
       | _ => Responds (mkResponse 200 "ok" None)
       end).

(** As [scenario], but the refresh is answered 401, and so is everything
    after it. *)
Definition rejecting : env :=
  mkEnv clock_100_200
    (fun n _ =>
       match n with
       | 0%nat => Responds (grant "a1" "r1" 1)
       | _ => Responds denied
       end).

(** As [scenario], but the refresh grants a2/r2 with [expires_in] 0. *)
Definition zero_lifetime : env :=
  mkEnv clock_100_200
    (fun n _ =>
       match n with
       | 0%nat => Responds (grant "a1" "r1" 1)
       | _ => Responds (grant "a2" "r2" 0)
       end).

Definition client0 : client := init default_base_url.

(** The client and the world after [login("testuser", "password123",
    "my-tenant")] on a fresh client; the environments answer the login
    alike. *)
Definition client1 : client :=
  mkClient default_base_url (Some "a1") (Some "r1") 101%float.

Definition world1 : world :=
  logged_in_world client0 "testuser" "password123" "my-tenant"
    (tokens "a1" "r1" 1) world0.

(** The client after the refresh of [scenario]. *)
Definition client2 : client :=
  mkClient default_base_url (Some "a2") (Some "r2") 260%float.

(** As [scenario], but the server has rotated: once the refresh of r1 has
    been granted, every later request is answered 401. *)
Definition rotating : env :=
  mkEnv clock_100_200
    (fun n _ =>
       match n with
       | 0%nat => Responds (grant "a1" "r1" 1)
       | 1%nat => Responds (grant "a2" "r2" 60)
       | _ => Responds denied
       end).

(** A server whose 200 responses have an access_token but no
    refresh_token key. *)
Definition half_granting : env :=
  mkEnv clock_100_200
    (fun _ _ =>
       Responds
         (mkResponse 200 "ok"
            (Some (Object (mkBody (Value "a1") Missing (Value 1) (Value 3600)
                             (Value (mkUser (Value "testuser")))))))).


(** A server whose second and third 200 responses are incomplete or out of
    range: the first login is granted a1/r1 for 1 second; the second login
    is granted a2/r2 for 60 seconds in a body without ["user"]; the
    refresh is granted a3/r3 with an [expires_in] of 10^400. *)
Definition incomplete : env :=
  mkEnv clock_100_200
    (fun n _ =>
       match n with
       | 0%nat => Responds (grant "a1" "r1" 1)
       | 1%nat =>
           Responds
             (mkResponse 200 "ok"
                (Some (Object (mkBody (Value "a2") (Value "r2") (Value 60)
                                 (Value 3600) Missing))))
       | _ =>
           Responds
             (mkResponse 200 "ok"
                (Some (Object (mkBody (Value "a3") (Value "r3")
                                 (Value (10 ^ 400)) Missing Missing))))
       end).

(** Two calls of [_get_headers] about to start on the client [c]. *)
Definition two_callers (c : client) (w : world) : system :=
  mkSystem Ready Ready c w.

(** ** Where the requests go *)

(** [req] is a POST to one of the three authentication endpoints under
    [base] (lines 34, 65 and 164). *)
Definition auth_endpoint (base : string) (req : request) : Prop :=
  r_method req = POST
  /\ (r_url req = base ++ "/auth/login"
      \/ r_url req = base ++ "/auth/token/refresh"
      \/ r_url req = base ++ "/auth/token/revoke").

(** * Properties *)

(** ** Proof support *)

Lemma status_not_200 (r : response) :
  status_code r <> 200 -> negb (status_code r =? 200) = true.
Proof.
  intros H. apply negb_true_iff, Z.eqb_neq. exact H.
Qed.

(** ** refresh without a refresh token *)

(** C5. In every state whose refresh token is absent (None or empty, the
    test of line 61), refresh_access_token raises the local error "No
    refresh token available": the client is unchanged, and so is the world
    (no request is sent, the clock is not read, nothing is printed). *)
Theorem refresh_without_token_is_local (E : env) (c : client) (w : world) :
  truthy (refresh_token c) = false ->
  refresh_access_token E c w
  = (Raise (PyException "No refresh token available"), c, w).
Proof.
  intros Hnone. unfold refresh_access_token, bind, get_self.
  rewrite Hnone. reflexivity.
Qed.

(** ** login rejected *)

(** C7. From every prior state, when the login request is answered with a
    status other than 200, login raises "Login failed: " followed by the
    server's message, and the client's fields are exactly what they were;
    the world has only gained the request. *)
Theorem login_rejected_keeps_state (E : env) (u p t : string) (c : client)
    (w : world) (r : response) :
  server E (length (sent w)) (login_request c u p t) = Responds r ->
  status_code r <> 200 ->
  login u p t E c w
  = (Raise (PyException ("Login failed: " ++ text r)), c,
     mkWorld (ticks w) (login_request c u p t :: sent w) (stdout w)).
Proof.
  intros Hreply Hstatus.
  unfold login, requests_post, bind, get_self, send, receive.
  fold (login_request c u p t). rewrite Hreply.
  rewrite (status_not_200 r Hstatus). reflexivity.
Qed.

(** ** The outcomes of refresh_access_token *)

(** Lines 73-75 (and 46-48), run on the decoded body. *)
Lemma store_is_stored (E : env) (data : document) (c : client) (w : world) :
  (a <- getitem data "access_token" j_access_token ;;
   set_access_token a ;;
   r <- getitem data "refresh_token" j_refresh_token ;;
   set_refresh_token r ;;
   now <- time_time ;;
   e <- getitem data "expires_in" j_expires_in ;;
   t <- float_add now e ;;
   set_token_expires_at t) E c w
  = stored E data c w.
Proof.
  unfold stored, bind, getitem, float_add, set_access_token,
    set_refresh_token, set_token_expires_at, time_time, ret, raise,
    access_assigned, tokens_assigned, granted, after_tick.
  destruct data as [|d]; [reflexivity|].
  destruct (j_access_token d); [reflexivity| |];
    (destruct (j_refresh_token d); [reflexivity| |]);
    (destruct (j_expires_in d) as [| |e]; [reflexivity|reflexivity|]);
    cbn [field_value base_url access_token refresh_token token_expires_at
         ticks sent stdout];
    destruct (float_of_int e); reflexivity.
Qed.

Lemma refresh_access_token_outcome (E : env) (c : client) (w : world) :
  refresh_access_token E c w = refresh_outcome E c w.
Proof.
  unfold refresh_outcome, refresh_access_token, refresh_finish.
  unfold bind at 1, get_self at 1.
  destruct (negb (truthy (refresh_token c))); [reflexivity|].
  unfold bind at 1, send at 1. unfold bind at 1, receive at 1.
  destruct (server E (length (sent w)) (refresh_request c)) as [r|];
    [|reflexivity].
  destruct (status_code r =? 200); cbn [negb]; [|reflexivity].
  unfold bind at 1, response_json.
  destruct (json r) as [data|]; [|reflexivity].
  unfold ret at 1. fold (after_send (refresh_request c) w).
  generalize (after_send (refresh_request c) w) as w0. intros w0.
  unfold stored, bind, getitem, float_add, set_access_token,
    set_refresh_token, set_token_expires_at, time_time, print, ret, raise,
    access_assigned, tokens_assigned, granted, after_tick, refresh_lines.
  destruct data as [|d]; [reflexivity|].
  destruct (j_access_token d); [reflexivity| |];
    (destruct (j_refresh_token d); [reflexivity| |]);
    (destruct (j_expires_in d) as [| |e]; [reflexivity|reflexivity|]);
    cbn [field_value base_url access_token refresh_token token_expires_at
         ticks sent stdout];
    destruct (float_of_int e); reflexivity.
Qed.

(** What [stored] leaves when it returns. *)
Lemma stored_returns_inv (E : env) (data : document) (c : client) (w : world)
    (c' : client) (w' : world) :
  stored E data c w = (Return tt, c', w') ->
  exists d e f,
    data = Object d
    /\ j_access_token d <> Missing
    /\ j_refresh_token d <> Missing
    /\ j_expires_in d = Value e
    /\ float_of_int e = Some f
    /\ c' = granted c d (clock E (ticks w) + f)%float
    /\ w' = after_tick w.
Proof.
  unfold stored. destruct data as [|d]; [discriminate|].
  destruct (j_access_token d) eqn:Ha; [discriminate| |];
    (destruct (j_refresh_token d) eqn:Hr; [discriminate| |]);
    (destruct (j_expires_in d) as [| |e] eqn:He;
       [discriminate|discriminate|]);
    (destruct (float_of_int e) as [f|] eqn:Hf; [|discriminate]);
    intros Heq; inversion Heq; subst;
    exists d, e, f; rewrite ?Ha, ?Hr;
    repeat split; try reflexivity; try discriminate; assumption.
Qed.

(** What [stored] leaves in every case: a prefix of the three
    assignments, no request and no line printed. *)
Lemma stored_effect (E : env) (data : document) (c : client) (w : world)
    (res : result unit) (c' : client) (w' : world) :
  stored E data c w = (res, c', w') ->
  sent w' = sent w
  /\ stdout w' = stdout w
  /\ (ticks w <= ticks w')%nat
  /\ (c' = c
      \/ exists d,
           data = Object d /\ partly_granted E (ticks w) (ticks w') c d c').
Proof.
  unfold stored, partly_granted. destruct data as [|d];
    [intros Heq; inversion Heq; auto|].
  destruct (j_access_token d) eqn:Ha;
    [intros Heq; inversion Heq; auto| |];
    (destruct (j_refresh_token d) eqn:Hr;
       [intros Heq; inversion Heq; subst;
        (split; [reflexivity|]); (split; [reflexivity|]);
        (split; [lia|]); right; exists d;
        (split; [reflexivity|]); (split; [congruence|]); left;
        (split; [reflexivity|exact Hr])
       | |]);
    (destruct (j_expires_in d) as [| |e] eqn:He;
       [| |destruct (float_of_int e) as [f|] eqn:Hf]);
    intros Heq; inversion Heq; subst;
    (split; [reflexivity|]); (split; [reflexivity|]);
    (split; [cbn [after_tick ticks]; lia|]); right; exists d;
    (split; [reflexivity|]); (split; [congruence|]); right;
    (split; [congruence|]); auto;
    right; exists e, f, (ticks w); cbn [after_tick ticks];
    repeat split; auto; lia.
Qed.

(** A refresh that returns has been granted by a 200 response. *)
Lemma refresh_returns_inv (E : env) (c : client) (w : world) (c' : client)
    (w' : world) :
  refresh_access_token E c w = (Return tt, c', w') ->
  exists r d e f,
    truthy (refresh_token c) = true
    /\ server E (length (sent w)) (refresh_request c) = Responds r
    /\ status_code r = 200
    /\ json r = Some (Object d)
    /\ j_access_token d <> Missing
    /\ j_refresh_token d <> Missing
    /\ j_expires_in d = Value e
    /\ float_of_int e = Some f
    /\ c' = granted c d (clock E (ticks w) + f)%float
    /\ w' = refreshed_world c w.
Proof.
  rewrite refresh_access_token_outcome. unfold refresh_outcome.
  destruct (truthy (refresh_token c)) eqn:Hheld; cbn [negb];
    [|discriminate].
  destruct (server E (length (sent w)) (refresh_request c)) as [r|] eqn:Hreply;
    [|discriminate].
  destruct (status_code r =? 200) eqn:Hstatus; [|discriminate].
  destruct (json r) as [data|] eqn:Hjson; [|discriminate].
  destruct (stored E data c (after_send (refresh_request c) w))
    as [[[[]|e0] c1] w1] eqn:Hstored; [|discriminate].
  destruct (stored_returns_inv _ _ _ _ _ _ Hstored)
    as (d & e & f & -> & Ha & Hr & He & Hf & -> & ->).
  intros Heq. inversion Heq; subst. exists r, d, e, f.
  apply Z.eqb_eq in Hstatus. repeat split; auto.
Qed.

(** ** The outcomes of _get_headers *)

Lemma needs_refresh_outcome (E : env) (c : client) (w : world) :
  needs_refresh E c w = (Return (negb (live E c w)), c, checked c w).
Proof.
  unfold needs_refresh, live, checked, bind, get_self, ret, time_time,
    after_tick.
  destruct (truthy (access_token c)); cbn [negb andb]; [|reflexivity].
  rewrite negb_involutive. reflexivity.
Qed.

Lemma get_headers_outcome (E : env) (c : client) (w : world) :
  _get_headers E c w
  = if live E c w then (Return (bearer_headers c), c, after_tick w)
    else
      match refresh_access_token E c (checked c w) with
      | (Return _, c', w') => (Return (bearer_headers c'), c', w')
      | (Raise e, c', w') => (Raise e, c', w')
      end.
Proof.
  unfold _get_headers, _ensure_authenticated.
  unfold bind at 1 2. rewrite needs_refresh_outcome.
  destruct (live E c w) eqn:Hlive; cbn [negb].
  - unfold checked. apply andb_prop in Hlive. destruct Hlive as [Ht _].
    rewrite Ht. reflexivity.
  - destruct (refresh_access_token E c (checked c w)) as [[[u|e] c'] w'];
      reflexivity.
Qed.

Lemma checked_sent (c : client) (w : world) : sent (checked c w) = sent w.
Proof.
  unfold checked. destruct (truthy (access_token c)); reflexivity.
Qed.

(** ** The outcomes of login *)

Lemma login_is_login_outcome (E : env) (u p t : string) (c : client)
    (w : world) :
  login u p t E c w = login_outcome E u p t c w.
Proof.
  unfold login_outcome, login, requests_post.
  unfold bind at 1, get_self at 1. unfold bind at 1. unfold bind at 1.
  unfold send at 1, receive at 1. fold (login_request c u p t).
  destruct (server E (length (sent w)) (login_request c u p t)) as [r|];
    [|reflexivity].
  destruct (status_code r =? 200); cbn [negb]; [|reflexivity].
  unfold bind at 1, response_json.
  destruct (json r) as [data|]; [|reflexivity].
  unfold ret at 1. fold (after_send (login_request c u p t) w).
  generalize (after_send (login_request c u p t) w) as w0. intros w0.
  unfold stored, announced, get_username, bind, getitem, float_add,
    set_access_token, set_refresh_token, set_token_expires_at, time_time,
    print, ret, raise, access_assigned, tokens_assigned, granted, after_tick.
  destruct data as [|d]; [reflexivity|].
  destruct (j_access_token d); [reflexivity| |];
    (destruct (j_refresh_token d); [reflexivity| |]);
    (destruct (j_expires_in d) as [| |e]; [reflexivity|reflexivity|]);
    cbn [field_value base_url access_token refresh_token token_expires_at
         ticks sent stdout];
    (destruct (float_of_int e); [|reflexivity]);
    cbn [fst snd ticks sent stdout];
    (destruct (j_user d) as [| |usr]; [reflexivity|reflexivity|]);
    (destruct (u_username usr); [reflexivity| |]);
    (destruct (j_refresh_expires_in d); reflexivity).
Qed.


(** A login that returns has been granted by a 200 response. *)
Lemma login_returns_inv (E : env) (u p t : string) (c : client) (w : world)
    (c' : client) (w' : world) :
  login u p t E c w = (Return tt, c', w') ->
  exists r d e f,
    server E (length (sent w)) (login_request c u p t) = Responds r
    /\ status_code r = 200
    /\ json r = Some (Object d)
    /\ j_access_token d <> Missing
    /\ j_refresh_token d <> Missing
    /\ j_expires_in d = Value e
    /\ float_of_int e = Some f
    /\ c' = granted c d (clock E (ticks w) + f)%float
    /\ w' = logged_in_world c u p t d w.
Proof.
  rewrite login_is_login_outcome. unfold login_outcome.
  destruct (server E (length (sent w)) (login_request c u p t))
    as [r|] eqn:Hreply; [|discriminate].
  destruct (status_code r =? 200) eqn:Hstatus; [|discriminate].
  destruct (json r) as [data|] eqn:Hjson; [|discriminate].
  destruct (stored E data c (after_send (login_request c u p t) w))
    as [[[[]|e0] c1] w1] eqn:Hstored; [|discriminate].
  destruct (stored_returns_inv _ _ _ _ _ _ Hstored)
    as (d & e & f & -> & Ha & Hr & He & Hf & -> & ->).
  cbn [after_tick after_send ticks sent stdout].
  destruct (announced d (stdout w)) as [[[]|e1] out] eqn:Hout;
    cbn [fst snd]; [|discriminate].
  intros Heq. inversion Heq; subst. exists r, d, e, f.
  apply Z.eqb_eq in Hstatus. unfold logged_in_world. rewrite Hout.
  repeat split; auto.
Qed.

Lemma announces_announced (d : body) (out : list string) :
  announces d -> j_expires_in d <> Missing ->
  fst (announced d out) = Return tt.
Proof.
  intros [(usr & Huser & Hname) Hre] He. unfold announced. rewrite Huser.
  destruct (u_username usr); [congruence| |];
    (destruct (j_expires_in d); [congruence| |]);
    (destruct (j_refresh_expires_in d); [congruence| |]); reflexivity.
Qed.

(** On a 200 response whose body has the keys login reads, with an
    [expires_in] that a float can hold, login returns. *)
Lemma login_returns (E : env) (u p t : string) (c : client) (w : world)
    (r : response) (d : body) (e : Z) (f : float) :
  server E (length (sent w)) (login_request c u p t) = Responds r ->
  status_code r = 200 ->
  json r = Some (Object d) ->
  j_access_token d <> Missing ->
  j_refresh_token d <> Missing ->
  j_expires_in d = Value e ->
  float_of_int e = Some f ->
  announces d ->
  login u p t E c w
  = (Return tt, granted c d (clock E (ticks w) + f)%float,
     logged_in_world c u p t d w).
Proof.
  intros Hreply Hstatus Hjson Ha Hr He Hf Hann.
  rewrite login_is_login_outcome. unfold login_outcome.
  rewrite Hreply, Hstatus, Hjson. cbn [Z.eqb Pos.eqb].
  assert (Hout : fst (announced d (stdout w)) = Return tt)
    by (apply announces_announced; [exact Hann|congruence]).
  unfold stored. rewrite He, Hf.
  destruct (j_access_token d); [congruence| |];
    (destruct (j_refresh_token d); [congruence| |]);
    cbn [after_tick after_send ticks sent stdout];
    rewrite Hout; reflexivity.
Qed.

(** On a 200 response whose body has the keys refresh_access_token reads,
    with an [expires_in] that a float can hold, the refresh returns. *)
Lemma refresh_returns (E : env) (c : client) (w : world) (r : response)
    (d : body) (e : Z) (f : float) :
  truthy (refresh_token c) = true ->
  server E (length (sent w)) (refresh_request c) = Responds r ->
  status_code r = 200 ->
  json r = Some (Object d) ->
  j_access_token d <> Missing ->
  j_refresh_token d <> Missing ->
  j_expires_in d = Value e ->
  float_of_int e = Some f ->
  refresh_access_token E c w
  = (Return tt, granted c d (clock E (ticks w) + f)%float,
     refreshed_world c w).
Proof.
  intros Hheld Hreply Hstatus Hjson Ha Hr He Hf.
  rewrite refresh_access_token_outcome. unfold refresh_outcome.
  rewrite Hheld, Hreply, Hstatus, Hjson. cbn [negb Z.eqb Pos.eqb].
  unfold stored. rewrite He, Hf.
  destruct (j_access_token d); [congruence| |];
    (destruct (j_refresh_token d); [congruence| |]); reflexivity.
Qed.

(** ** refresh rejected *)

(** C6. In every state holding a refresh token, when the refresh request is
    answered with a status other than 200, refresh_access_token raises
    "Token refresh failed: " followed by the server's message and leaves
    access_token, refresh_token and token_expires_at (the whole client)
    unchanged; and whenever _get_headers is next called on that state with
    the access token absent or expired, it sends the refresh request
    again. *)
Theorem refresh_rejected_keeps_state (E : env) (c : client) (w : world)
    (r : response) :
  truthy (refresh_token c) = true ->
  server E (length (sent w)) (refresh_request c) = Responds r ->
  status_code r <> 200 ->
  refresh_access_token E c w
  = (Raise (PyException ("Token refresh failed: " ++ text r)), c,
     after_send (refresh_request c) w)
  /\ forall w1 : world,
       live E c w1 = false ->
       exists (res : result (list (string * string))) (c2 : client)
              (w2 : world),
         _get_headers E c w1 = (res, c2, w2)
         /\ sent w2 = refresh_request c :: sent w1.
Proof.
  intros Hheld Hreply Hstatus. split.
  - rewrite refresh_access_token_outcome. unfold refresh_outcome.
    rewrite Hheld, Hreply. cbn [negb].
    apply Z.eqb_neq in Hstatus. rewrite Hstatus. reflexivity.
  - intros w1 Hstale. rewrite get_headers_outcome, Hstale.
    rewrite refresh_access_token_outcome. unfold refresh_outcome.
    rewrite Hheld. cbn [negb].
    pose proof (checked_sent c w1) as Hsent. rewrite Hsent.
    destruct (server E (length (sent w1)) (refresh_request c)) as [r1|].
    + destruct (status_code r1 =? 200).
      * destruct (json r1) as [data|].
        -- destruct (stored E data c
                       (after_send (refresh_request c) (checked c w1)))
             as [[[[]|e] c1] w2] eqn:Hstored;
             apply stored_effect in Hstored;
             destruct Hstored as (Hs & _ & _ & _);
             do 3 eexists; (split; [reflexivity|]);
             cbn [sent]; rewrite Hs; cbn [after_send sent];
             now rewrite Hsent.
        -- do 3 eexists; split; [reflexivity|].
           cbn [sent after_send]. now rewrite Hsent.
      * do 3 eexists; split; [reflexivity|].
        cbn [sent after_send]. now rewrite Hsent.
    + do 3 eexists; split; [reflexivity|].
      cbn [sent after_send]. now rewrite Hsent.
Qed.

Lemma refresh_without_token_is_local_witness :
  refresh_access_token scenario client0 world0
  = (Raise (PyException "No refresh token available"), client0, world0).
Proof.
  apply (refresh_without_token_is_local scenario client0 world0).
  reflexivity.
Defined.

Lemma login_rejected_keeps_state_witness :
  login "testuser" "wrong" "my-tenant" rejecting client1 world1
  = (Raise (PyException ("Login failed: " ++ text denied)), client1,
     mkWorld (ticks world1)
       (login_request client1 "testuser" "wrong" "my-tenant" :: sent world1)
       (stdout world1)).
Proof.
  apply (login_rejected_keeps_state rejecting "testuser" "wrong" "my-tenant"
           client1 world1 denied).
  - reflexivity.
  - vm_compute. discriminate.
Defined.

Lemma refresh_rejected_keeps_state_witness :
  refresh_access_token rejecting client1 world1
  = (Raise (PyException ("Token refresh failed: " ++ text denied)), client1,
     after_send (refresh_request client1) world1)
  /\ exists (res : result (list (string * string))) (c2 : client)
            (w2 : world),
       _get_headers rejecting client1
         (after_send (refresh_request client1) world1) = (res, c2, w2)
       /\ sent w2
          = refresh_request client1
              :: sent (after_send (refresh_request client1) world1).
Proof.
  destruct (refresh_rejected_keeps_state rejecting client1 world1 denied)
    as [Hraise Hagain].
  - reflexivity.
  - reflexivity.
  - vm_compute. discriminate.
  - split; [exact Hraise|]. apply Hagain. vm_compute. reflexivity.
Defined.

(** ** _get_headers *)

Lemma live_true (E : env) (c : client) (w : world) :
  live E c w = true
  <-> truthy (access_token c) = true
      /\ (token_expires_at c <=? clock E (ticks w))%float = false.
Proof.
  unfold live. rewrite andb_true_iff, negb_true_iff. reflexivity.
Qed.




(** ** Is the token of the returned headers unexpired? *)

(** C3, on the code. After login has granted a1/r1 for 1 unit at time 100,
    _get_headers is called at time 200: the token has expired, the refresh
    is granted a2/r2 with expires_in 0 and handled at time 200, and the
    headers returned bear a2, whose token_expires_at is 200: the test
    [time.time() >= self.token_expires_at] is true of it at the time of
    the call. *)
Lemma get_headers_hands_out_expired_token :
  run zero_lifetime [Login "testuser" "password123" "my-tenant"] client0 world0
  = (client1, world1)
  /\ _get_headers zero_lifetime client1 world1
     = (Return [("Content-Type", "application/json");
                ("Authorization", "Bearer a2")],
        mkClient default_base_url (Some "a2") (Some "r2") 200%float,
        refreshed_world client1 (after_tick world1))
  /\ clock zero_lifetime (ticks world1) = 200%float
  /\ (token_expires_at
        (mkClient default_base_url (Some "a2") (Some "r2") 200%float)
      <=? clock zero_lifetime (ticks world1))%float = true.
Proof.
  split; [vm_compute; reflexivity|].
  split; [vm_compute; reflexivity|].
  split; [reflexivity|].
  vm_compute. reflexivity.
Qed.

(** C3, amended. Whenever _get_headers returns headers, it has read the
    clock, and of its last reading the following holds.  If no refresh was
    needed, that reading is the one of line 82 and the test [time.time()
    >= self.token_expires_at] was false of it: the token handed out was
    unexpired.  If the call refreshed, the reading is the one of line 75,
    taken after the 200 response, and token_expires_at is the float sum of
    that reading and the expires_in of the response; it is not compared
    with the clock again, so the token handed out is unexpired at that
    reading only if the sum is greater than the reading. *)
Theorem get_headers_checks_expiry_before_refresh_only (E : env) (c : client)
    (w : world) (h : list (string * string)) (c' : client) (w' : world) :
  _get_headers E c w = (Return h, c', w') ->
  exists last : nat,
    ticks w' = S last
    /\ (ticks w <= last)%nat
    /\ ((live E c w = true
         /\ c' = c
         /\ last = ticks w
         /\ (token_expires_at c' <=? clock E last)%float = false)
        \/ (live E c w = false
            /\ exists (r : response) (d : body) (e : Z) (f : float),
                 server E (length (sent w)) (refresh_request c) = Responds r
                 /\ status_code r = 200
                 /\ json r = Some (Object d)
                 /\ j_expires_in d = Value e
                 /\ float_of_int e = Some f
                 /\ token_expires_at c' = (clock E last + f)%float
                 /\ (token_expires_at c' <=? clock E last)%float
                    = (clock E last + f <=? clock E last)%float)).
Proof.
  rewrite get_headers_outcome.
  destruct (live E c w) eqn:Hlive.
  - intros Heq. inversion Heq; subst. apply live_true in Hlive.
    destruct Hlive as [_ Hfresh]. exists (ticks w).
    cbn [after_tick ticks]. split; [reflexivity|]. split; [lia|].
    left. repeat split. exact Hfresh.
  - destruct (refresh_access_token E c (checked c w))
      as [[[[]|e0] c1] w1] eqn:Hrun; [|discriminate].
    intros Heq. inversion Heq; subst.
    destruct (refresh_returns_inv _ _ _ _ _ Hrun)
      as (r & d & e & f & _ & Hreply & Hstatus & Hjson & _ & _ & He & Hf
          & Hc & Hw).
    rewrite checked_sent in Hreply.
    exists (ticks (checked c w)). subst c' w'.
    cbn [refreshed_world granted ticks token_expires_at].
    split; [reflexivity|].
    split; [unfold checked; destruct (truthy (access_token c));
            cbn [after_tick ticks]; lia|].
    right. split; [reflexivity|]. exists r, d, e, f.
    repeat split; assumption.
Qed.

Lemma get_headers_checks_expiry_before_refresh_only_witness :
  exists last : nat,
    ticks (refreshed_world client1 (after_tick world1)) = S last
    /\ (ticks world1 <= last)%nat
    /\ ((live scenario client1 world1 = true
         /\ client2 = client1
         /\ last = ticks world1
         /\ (token_expires_at client2 <=? clock scenario last)%float = false)
        \/ (live scenario client1 world1 = false
            /\ exists (r : response) (d : body) (e : Z) (f : float),
                 server scenario (length (sent world1))
                   (refresh_request client1) = Responds r
                 /\ status_code r = 200
                 /\ json r = Some (Object d)
                 /\ j_expires_in d = Value e
                 /\ float_of_int e = Some f
                 /\ token_expires_at client2 = (clock scenario last + f)%float
                 /\ (token_expires_at client2 <=? clock scenario last)%float
                    = (clock scenario last + f <=? clock scenario last)%float)).
Proof.
  apply (get_headers_checks_expiry_before_refresh_only scenario client1 world1
           (bearer_headers client2) client2
           (refreshed_world client1 (after_tick world1))).
  vm_compute. reflexivity.
Defined.

(** ** logout *)

(** No method assigns base_url. *)
Lemma stored_base_url (E : env) (data : document) (c : client) (w : world)
    (res : result unit) (c' : client) (w' : world) :
  stored E data c w = (res, c', w') -> base_url c' = base_url c.
Proof.
  intros Hstored. apply stored_effect in Hstored.
  destruct Hstored as (_ & _ & _ & [->|(d & _ & _ & Hc)]); [reflexivity|].
  destruct Hc as [[-> _]|(_ & [->|(e & f & n & _ & _ & _ & ->)])];
    reflexivity.
Qed.

Lemma refresh_base_url (E : env) (c : client) (w : world)
    (res : result unit) (c' : client) (w' : world) :
  refresh_access_token E c w = (res, c', w') -> base_url c' = base_url c.
Proof.
  rewrite refresh_access_token_outcome. unfold refresh_outcome.
  destruct (negb (truthy (refresh_token c)));
    [intros Heq; inversion Heq; reflexivity|].
  destruct (server E _ _) as [r|];
    [|intros Heq; inversion Heq; reflexivity].
  destruct (status_code r =? 200);
    [|intros Heq; inversion Heq; reflexivity].
  destruct (json r) as [data|]; [|intros Heq; inversion Heq; reflexivity].
  destruct (stored E data c _) as [[[[]|e] c1] w1] eqn:Hstored;
    intros Heq; inversion Heq; subst;
    exact (stored_base_url _ _ _ _ _ _ _ Hstored).
Qed.

Lemma get_headers_base_url (E : env) (c : client) (w : world)
    (res : result (list (string * string))) (c' : client) (w' : world) :
  _get_headers E c w = (res, c', w') -> base_url c' = base_url c.
Proof.
  rewrite get_headers_outcome.
  destruct (live E c w); [intros Heq; inversion Heq; reflexivity|].
  destruct (refresh_access_token E c (checked c w))
    as [[[[]|e] c1] w1] eqn:Hrun;
    intros Heq; inversion Heq; subst;
    exact (refresh_base_url _ _ _ _ _ _ Hrun).
Qed.

(** C1, on the code. After login has granted a1/r1 for 1 unit at time 100,
    logout is called at time 200 with the refresh token held: the access
    token has expired, the refresh that _get_headers attempts for the
    revoke call is answered 401, and its exception leaves logout; both
    tokens are still stored. *)
Lemma logout_raises_and_keeps_tokens :
  run rejecting [Login "testuser" "password123" "my-tenant"] client0 world0
  = (client1, world1)
  /\ truthy (refresh_token client1) = true
  /\ logout rejecting client1 world1
     = (Raise (PyException "Token refresh failed: invalid token"), client1,
        after_send (refresh_request client1) (after_tick world1))
  /\ ~ unauthenticated client1.
Proof.
  split; [vm_compute; reflexivity|].
  split; [reflexivity|].
  split; [vm_compute; reflexivity|].
  intros [Haccess _]. discriminate Haccess.
Qed.

(** C1, amended. In every state in which a refresh token is held, if
    _get_headers returns the headers for the revoke call (the access token
    is live, or its refresh is granted) and the revoke request is answered,
    whatever the status of the answer, then logout returns normally, with
    access_token and refresh_token both None (the unauthenticated state),
    having sent the revoke request. *)
Theorem logout_clears_when_revoke_is_answered (E : env) (c : client)
    (w : world) (h : list (string * string)) (c1 : client) (w1 : world)
    (r : response) :
  truthy (refresh_token c) = true ->
  _get_headers E c w = (Return h, c1, w1) ->
  server E (length (sent w1)) (revoke_request c1 h) = Responds r ->
  exists w2 : world,
    logout E c w = (Return tt, cleared c1, w2)
    /\ unauthenticated (cleared c1)
    /\ sent w2 = revoke_request c1 h :: sent w1.
Proof.
  intros Hheld Hheaders Hreply.
  pose proof (get_headers_base_url _ _ _ _ _ _ Hheaders) as Hbase.
  unfold logout. unfold bind at 1, get_self at 1. rewrite Hheld.
  cbn [negb]. unfold bind at 1. rewrite Hheaders.
  unfold bind at 1, get_self at 1. unfold bind at 1.
  unfold requests_post, bind at 1, send at 1, receive.
  rewrite <- Hbase. fold (revoke_request c1 h). rewrite Hreply.
  destruct (status_code r =? 200); eexists;
    (split; [reflexivity|split; [split; reflexivity|reflexivity]]).
Qed.

Lemma logout_clears_when_revoke_is_answered_witness :
  exists w2 : world,
    logout rejecting client1 world0 = (Return tt, cleared client1, w2)
    /\ unauthenticated (cleared client1)
    /\ sent w2
       = revoke_request client1 (bearer_headers client1)
           :: sent (after_tick world0).
Proof.
  apply (logout_clears_when_revoke_is_answered rejecting client1 world0
           (bearer_headers client1) client1 (after_tick world0)
           (grant "a1" "r1" 1)).
  - reflexivity.
  - vm_compute. reflexivity.
  - vm_compute. reflexivity.
Defined.

(** ** The fields after each operation *)

(** What logout does once its guard has passed, by the outcome of
    _get_headers and the answer to the revoke request. *)
Lemma logout_outcome (E : env) (c : client) (w : world) :
  logout E c w
  = if negb (truthy (refresh_token c)) then (Return tt, c, w)
    else
      match _get_headers E c w with
      | (Raise e, c1, w1) => (Raise e, c1, w1)
      | (Return h, c1, w1) =>
          match server E (length (sent w1)) (revoke_request c1 h) with
          | Unreachable =>
              (Raise ConnectionError, c1, after_send (revoke_request c1 h) w1)
          | Responds r =>
              (Return tt, cleared c1,
               if status_code r =? 200
               then mkWorld (ticks w1) (revoke_request c1 h :: sent w1)
                      ("✅ Logged out successfully" :: stdout w1)
               else after_send (revoke_request c1 h) w1)
          end
      end.
Proof.
  unfold logout. unfold bind at 1, get_self at 1.
  destruct (negb (truthy (refresh_token c))); [reflexivity|].
  unfold bind at 1.
  destruct (_get_headers E c w) as [[[h|e] c1] w1] eqn:Hheaders;
    [|reflexivity].
  pose proof (get_headers_base_url _ _ _ _ _ _ Hheaders) as Hbase.
  unfold bind at 1, get_self at 1. unfold bind at 1.
  unfold requests_post, bind at 1, send at 1, receive.
  rewrite <- Hbase. fold (revoke_request c1 h).
  destruct (server E (length (sent w1)) (revoke_request c1 h)) as [r|];
    [|reflexivity].
  destruct (status_code r =? 200); reflexivity.
Qed.

(** ** The requests sent, in their order *)

Lemma nth_sent_new (w w' : world) (new : list request) (req : request) :
  sent w' = (new ++ req :: sent w)%list ->
  nth_sent w' (length (sent w)) = Some req.
Proof.
  intros Hs. unfold nth_sent. rewrite Hs, rev_app_distr. cbn [rev].
  rewrite <- app_assoc, nth_error_app2 by (rewrite length_rev; lia).
  rewrite length_rev, Nat.sub_diag. reflexivity.
Qed.

Lemma nth_sent_later (w w' : world) (new : list request) (n : nat)
    (req : request) :
  sent w' = (new ++ sent w)%list ->
  nth_sent w n = Some req -> nth_sent w' n = Some req.
Proof.
  intros Hs Hn. unfold nth_sent in *. rewrite Hs, rev_app_distr.
  rewrite nth_error_app1; [exact Hn|].
  apply nth_error_Some. rewrite Hn. discriminate.
Qed.

Lemma exchange_later (E : env) (w w' : world) (new : list request) (n : nat)
    (req : request) (r : response) (d : body) :
  sent w' = (new ++ sent w)%list ->
  exchange E w n req r d -> exchange E w' n req r d.
Proof.
  intros Hs (Hn & Hrest). split; [|exact Hrest].
  eapply nth_sent_later; eassumption.
Qed.

Lemma partly_granted_wider (E : env) (lo hi lo' hi' : nat) (c : client)
    (d : body) (c' : client) :
  (lo' <= lo)%nat -> (hi <= hi')%nat ->
  partly_granted E lo hi c d c' -> partly_granted E lo' hi' c d c'.
Proof.
  intros Hlo Hhi (Ha & Hc). split; [exact Ha|].
  destruct Hc as [Hc|(Hr & [Hc|(e & f & n & He & Hf & Hn & Hc)])]; auto.
  right. split; [exact Hr|]. right. exists e, f, n.
  repeat split; auto; lia.
Qed.

Lemma token_effect_later (E : env) (c : client) (w : world) (c' : client)
    (w1 w' : world) (new : list request) :
  sent w' = (new ++ sent w1)%list ->
  ticks w' = ticks w1 ->
  token_effect E c w c' w1 -> token_effect E c w c' w'.
Proof.
  intros Hs Ht [Hc|(req & r & d & Hx & Hg)]; [left; exact Hc|right].
  exists req, r, d. split; [eapply exchange_later; eassumption|].
  rewrite Ht. exact Hg.
Qed.

(** ** What each operation does to the fields *)

Lemma refresh_effect (E : env) (c : client) (w : world) (res : result unit)
    (c' : client) (w' : world) :
  refresh_access_token E c w = (res, c', w') ->
  (ticks w <= ticks w')%nat
  /\ ((sent w' = sent w /\ c' = c)
      \/ (sent w' = refresh_request c :: sent w
          /\ truthy (refresh_token c) = true
          /\ (c' = c
              \/ exists (r : response) (d : body),
                   server E (length (sent w)) (refresh_request c) = Responds r
                   /\ status_code r = 200
                   /\ json r = Some (Object d)
                   /\ partly_granted E (ticks w) (ticks w') c d c'))).
Proof.
  rewrite refresh_access_token_outcome. unfold refresh_outcome.
  destruct (truthy (refresh_token c)) eqn:Hheld; cbn [negb];
    [|intros Heq; inversion Heq; subst; split; [lia|left; auto]].
  destruct (server E _ _) as [r|] eqn:Hreply;
    [|intros Heq; inversion Heq; subst; cbn [after_send ticks sent];
      split; [lia|right; auto]].
  destruct (status_code r =? 200) eqn:Hstatus;
    [|intros Heq; inversion Heq; subst; cbn [after_send ticks sent];
      split; [lia|right; auto]].
  destruct (json r) as [data|] eqn:Hjson;
    [|intros Heq; inversion Heq; subst; cbn [after_send ticks sent];
      split; [lia|right; auto]].
  apply Z.eqb_eq in Hstatus.
  destruct (stored E data c (after_send (refresh_request c) w))
    as [[res1 c1] w1] eqn:Hstored.
  destruct (stored_effect _ _ _ _ _ _ _ Hstored) as (Hs & _ & Ht & Hc).
  cbn [after_send ticks sent] in Hs, Ht, Hc.
  assert (Hgoal : forall w2,
            sent w2 = sent w1 -> ticks w2 = ticks w1 ->
            (ticks w <= ticks w2)%nat
            /\ ((sent w2 = sent w /\ c1 = c)
                \/ (sent w2 = refresh_request c :: sent w
                    /\ true = true
                    /\ (c1 = c
                        \/ exists (r0 : response) (d : body),
                             Responds r = Responds r0
                             /\ status_code r0 = 200
                             /\ json r0 = Some (Object d)
                             /\ partly_granted E (ticks w) (ticks w2) c d c1)))).
  { intros w2 Hs2 Ht2. rewrite Hs2, Ht2. split; [exact Ht|]. right.
    split; [exact Hs|]. split; [reflexivity|].
    destruct Hc as [Hc|(d & -> & Hg)]; [left; exact Hc|right].
    exists r, d. auto. }
  destruct res1 as [[]|e]; intros Heq; inversion Heq; subst;
    apply Hgoal; reflexivity.
Qed.

Lemma get_headers_effect (E : env) (c : client) (w : world)
    (res : result (list (string * string))) (c' : client) (w' : world) :
  _get_headers E c w = (res, c', w') ->
  (ticks w <= ticks w')%nat
  /\ ((sent w' = sent w /\ c' = c)
      \/ (sent w' = refresh_request c :: sent w
          /\ truthy (refresh_token c) = true
          /\ (c' = c
              \/ exists (r : response) (d : body),
                   server E (length (sent w)) (refresh_request c) = Responds r
                   /\ status_code r = 200
                   /\ json r = Some (Object d)
                   /\ partly_granted E (ticks w) (ticks w') c d c'))).
Proof.
  rewrite get_headers_outcome.
  destruct (live E c w);
    [intros Heq; inversion Heq; subst; cbn [after_tick ticks sent];
     split; [lia|left; auto]|].
  assert (Hticks : (ticks w <= ticks (checked c w))%nat)
    by (unfold checked; destruct (truthy (access_token c));
        cbn [after_tick ticks]; lia).
  pose proof (checked_sent c w) as Hsent.
  intros Hrun.
  assert (Heff : exists res1,
            refresh_access_token E c (checked c w) = (res1, c', w')).
  { destruct (refresh_access_token E c (checked c w))
      as [[[[]|e] c1] w1]; inversion Hrun; subst; eauto. }
  destruct Heff as (res1 & Heff). apply refresh_effect in Heff.
  rewrite Hsent in Heff. destruct Heff as (Ht & Hcases).
  split; [lia|].
  destruct Hcases as [Hsame|(Hs & Hheld & Hc)]; [left; exact Hsame|right].
  split; [exact Hs|]. split; [exact Hheld|].
  destruct Hc as [Hc|(r & d & Hreply & Hstatus & Hjson & Hg)];
    [left; exact Hc|right].
  exists r, d. split; [exact Hreply|]. split; [exact Hstatus|].
  split; [exact Hjson|].
  eapply partly_granted_wider; [exact Hticks|apply Nat.le_refl|exact Hg].
Qed.

Lemma login_effect (E : env) (u p t : string) (c : client) (w : world)
    (res : result unit) (c' : client) (w' : world) :
  login u p t E c w = (res, c', w') ->
  (ticks w <= ticks w')%nat
  /\ sent w' = login_request c u p t :: sent w
  /\ (c' = c
      \/ exists (r : response) (d : body),
           server E (length (sent w)) (login_request c u p t) = Responds r
           /\ status_code r = 200
           /\ json r = Some (Object d)
           /\ partly_granted E (ticks w) (ticks w') c d c').
Proof.
  rewrite login_is_login_outcome. unfold login_outcome.
  destruct (server E _ _) as [r|] eqn:Hreply;
    [|intros Heq; inversion Heq; subst; cbn [after_send ticks sent];
      split; [lia|auto]].
  destruct (status_code r =? 200) eqn:Hstatus;
    [|intros Heq; inversion Heq; subst; cbn [after_send ticks sent];
      split; [lia|auto]].
  destruct (json r) as [data|] eqn:Hjson;
    [|intros Heq; inversion Heq; subst; cbn [after_send ticks sent];
      split; [lia|auto]].
  apply Z.eqb_eq in Hstatus.
  destruct (stored E data c (after_send (login_request c u p t) w))
    as [[res1 c1] w1] eqn:Hstored.
  destruct (stored_effect _ _ _ _ _ _ _ Hstored) as (Hs & _ & Ht & Hc).
  cbn [after_send ticks sent] in Hs, Ht, Hc.
  assert (Hgoal : forall w2,
            sent w2 = sent w1 -> ticks w2 = ticks w1 ->
            (ticks w <= ticks w2)%nat
            /\ sent w2 = login_request c u p t :: sent w
            /\ (c1 = c
                \/ exists (r0 : response) (d : body),
                     Responds r = Responds r0
                     /\ status_code r0 = 200
                     /\ json r0 = Some (Object d)
                     /\ partly_granted E (ticks w) (ticks w2) c d c1)).
  { intros w2 Hs2 Ht2. rewrite Hs2, Ht2. split; [exact Ht|].
    split; [exact Hs|].
    destruct Hc as [Hc|(d & -> & Hg)]; [left; exact Hc|right].
    exists r, d. auto. }
  destruct res1 as [[]|e];
    [destruct data as [|d]|];
    intros Heq; inversion Heq; subst; apply Hgoal; reflexivity.
Qed.

Lemma token_request_refresh (c : client) : token_request (refresh_request c).
Proof. right. exists c. reflexivity. Qed.

Lemma token_request_login (c : client) (u p t : string) :
  token_request (login_request c u p t).
Proof. left. exists c, u, p, t. reflexivity. Qed.

(** Every operation sends at most two requests, the first of which is its
    token exchange if it makes one, and leaves the fields as they were, or
    partly or wholly assigned from that exchange, or cleared after that. *)
Lemma exec_effect (E : env) (o : op) (c : client) (w : world)
    (res : result unit) (c' : client) (w' : world) :
  exec o E c w = (res, c', w') ->
  (ticks w <= ticks w')%nat
  /\ (exists new : list request,
        sent w' = (new ++ sent w)%list /\ (length new <= 2)%nat)
  /\ (token_effect E c w c' w'
      \/ exists c1 : client, c' = cleared c1 /\ token_effect E c w c1 w').
Proof.
  assert (Hheaders : forall res1 c1 w1,
            _get_headers E c w = (res1, c1, w1) ->
            (ticks w <= ticks w1)%nat
            /\ (exists new : list request,
                  sent w1 = (new ++ sent w)%list /\ (length new <= 1)%nat)
            /\ token_effect E c w c1 w1).
  { intros res1 c1 w1 Hrun. apply get_headers_effect in Hrun.
    destruct Hrun as (Ht & [(Hs & Hc)|(Hs & _ & Hc)]).
    - split; [exact Ht|]. split; [|left; exact Hc].
      exists []. split; [exact Hs|cbn; lia].
    - split; [exact Ht|]. split.
      + exists [refresh_request c]. split; [exact Hs|cbn; lia].
      + destruct Hc as [Hc|(r & d & Hreply & Hstatus & Hjson & Hg)];
          [left; exact Hc|right].
        exists (refresh_request c), r, d. split; [|exact Hg].
        split; [apply (nth_sent_new w w1 []); exact Hs|].
        split; [apply token_request_refresh|]. auto. }
  destruct o as [u p t| | |]; cbn [exec].
  - intros Hrun. apply login_effect in Hrun.
    destruct Hrun as (Ht & Hs & Hc). split; [exact Ht|]. split.
    + exists [login_request c u p t]. split; [exact Hs|cbn; lia].
    + left. destruct Hc as [Hc|(r & d & Hreply & Hstatus & Hjson & Hg)];
        [left; exact Hc|right].
      exists (login_request c u p t), r, d. split; [|exact Hg].
      split; [apply (nth_sent_new w w' []); exact Hs|].
      split; [apply token_request_login|]. auto.
  - intros Hrun. apply refresh_effect in Hrun.
    destruct Hrun as (Ht & [(Hs & Hc)|(Hs & _ & Hc)]).
    + split; [exact Ht|]. split; [|left; left; exact Hc].
      exists []. split; [exact Hs|cbn; lia].
    + split; [exact Ht|]. split.
      * exists [refresh_request c]. split; [exact Hs|cbn; lia].
      * left. destruct Hc as [Hc|(r & d & Hreply & Hstatus & Hjson & Hg)];
          [left; exact Hc|right].
        exists (refresh_request c), r, d. split; [|exact Hg].
        split; [apply (nth_sent_new w w' []); exact Hs|].
        split; [apply token_request_refresh|]. auto.
  - unfold bind.
    destruct (_get_headers E c w) as [[[h|e] c1] w1] eqn:Hrun;
      intros Heq; injection Heq as _ Hc' Hw'; subst c' w';
      destruct (Hheaders _ _ _ eq_refl) as (Ht & (new & Hs & Hlen) & Hc);
      (split; [exact Ht|]); (split; [|left; exact Hc]);
      exists new; split; [exact Hs|lia|exact Hs|lia].
  - rewrite logout_outcome.
    destruct (negb (truthy (refresh_token c))).
    { intros Heq; inversion Heq; subst. split; [lia|].
      split; [|left; left; reflexivity].
      exists []. split; [reflexivity|cbn; lia]. }
    destruct (_get_headers E c w) as [[[h|e] c1] w1] eqn:Hrun;
      destruct (Hheaders _ _ _ eq_refl) as (Ht & (new & Hs & Hlen) & Hc).
    + assert (Hafter : forall w2,
                sent w2 = revoke_request c1 h :: sent w1 ->
                ticks w2 = ticks w1 ->
                (ticks w <= ticks w2)%nat
                /\ (exists new2 : list request,
                      sent w2 = (new2 ++ sent w)%list
                      /\ (length new2 <= 2)%nat)
                /\ token_effect E c w c1 w2).
      { intros w2 Hs2 Ht2. split; [lia|]. split.
        - exists (revoke_request c1 h :: new).
          split; [rewrite Hs2, Hs; reflexivity|cbn [length]; lia].
        - apply (token_effect_later E c w c1 w1 w2 [revoke_request c1 h]);
            assumption. }
      destruct (server E _ _) as [r|]; intros Heq;
        injection Heq as _ Hc' Hw'; subst c' w'.
      * destruct (Hafter (if status_code r =? 200
                          then mkWorld (ticks w1)
                                 (revoke_request c1 h :: sent w1)
                                 ("✅ Logged out successfully" :: stdout w1)
                          else after_send (revoke_request c1 h) w1))
          as (Ht2 & Hnew2 & Hc2);
          [destruct (status_code r =? 200); reflexivity
          |destruct (status_code r =? 200); reflexivity|].
        split; [exact Ht2|]. split; [exact Hnew2|].
        right. exists c1. split; [reflexivity|exact Hc2].
      * destruct (Hafter (after_send (revoke_request c1 h) w1))
          as (Ht2 & Hnew2 & Hc2); [reflexivity|reflexivity|].
        split; [exact Ht2|]. split; [exact Hnew2|]. left. exact Hc2.
    + intros Heq; injection Heq as _ Hc' Hw'; subst c' w'.
      split; [exact Ht|]. split; [|left; exact Hc].
      exists new. split; [exact Hs|lia].
Qed.

(** ** The two tokens are set together and cleared together *)

Lemma run_sent (E : env) (ops : list op) :
  forall (c : client) (w : world) (c' : client) (w' : world),
    run E ops c w = (c', w') ->
    exists new : list request, sent w' = (new ++ sent w)%list.
Proof.
  induction ops as [|o ops IH]; intros c w c' w' Hrun; cbn [run] in Hrun.
  - inversion Hrun; subst. exists []. reflexivity.
  - destruct (exec o E c w) as [[res c1] w1] eqn:Hexec.
    destruct (exec_effect _ _ _ _ _ _ _ Hexec) as (_ & (new1 & Hs1 & _) & _).
    destruct (IH _ _ _ _ Hrun) as (new2 & Hs2).
    exists (new2 ++ new1)%list. rewrite Hs2, Hs1. apply app_assoc.
Qed.

Lemma delivered_together_earlier (E : env) (n0 n1 : nat) (w w' : world)
    (new : list request) :
  (n0 <= n1)%nat ->
  sent w' = (new ++ sent w)%list ->
  delivered_together E n0 w' -> delivered_together E n1 w.
Proof.
  intros Hn Hs Hd n req r d Hle Hx. apply (Hd n req r d); [lia|].
  eapply exchange_later; eassumption.
Qed.

(** One operation keeps the pairing when the exchange it makes delivers
    the tokens together. *)
Lemma exec_paired (E : env) (o : op) (c : client) (w : world)
    (res : result unit) (c' : client) (w' : world) :
  paired c ->
  exec o E c w = (res, c', w') ->
  delivered_together E (length (sent w)) w' ->
  paired c'.
Proof.
  intros Hpaired Hexec Hd.
  assert (Heffect : forall c1, token_effect E c w c1 w' -> paired c1).
  { intros c1 [->|(req & r & d & Hx & Ha & Hg)]; [exact Hpaired|].
    destruct (Hd _ _ _ _ (Nat.le_refl _) Hx) as [Hmiss|(Hr & Htruth)];
      [contradiction|].
    destruct Hg as [[_ Hmiss]|(_ & [->|(e & f & n & _ & _ & _ & ->)])];
      [contradiction|exact Htruth|exact Htruth]. }
  destruct (exec_effect _ _ _ _ _ _ _ Hexec) as (_ & _ & [Hc|(c1 & -> & _)]).
  - apply Heffect, Hc.
  - reflexivity.
Qed.

(** C10, on the code. login on a fresh client is answered 200 with a body
    that has an access_token but no refresh_token: line 46 assigns the
    access token, line 47 raises KeyError, and the client is left holding
    an access token without a refresh token. *)
Lemma login_sets_access_token_alone :
  paired client0
  /\ login "testuser" "password123" "my-tenant" half_granting client0 world0
     = (Raise (KeyError "refresh_token"),
        mkClient default_base_url (Some "a1") None 0%float,
        after_send
          (login_request client0 "testuser" "password123" "my-tenant") world0)
  /\ access_token (mkClient default_base_url (Some "a1") None 0%float)
     = Some "a1"
  /\ refresh_token (mkClient default_base_url (Some "a1") None 0%float) = None
  /\ ~ paired (mkClient default_base_url (Some "a1") None 0%float).
Proof.
  split; [reflexivity|].
  split; [vm_compute; reflexivity|].
  split; [reflexivity|]. split; [reflexivity|].
  unfold paired. cbn. discriminate.
Qed.

(** C10, amended. A fresh client holds neither token, and over any
    sequence of operations (login, refresh, ensure_valid, logout, whether
    they return or raise) a state in which access_token is present exactly
    when refresh_token is leads to another such state, provided that in
    every 200 response to a login or refresh request of the sequence a
    body that has an access_token has a refresh_token too, the two being
    both present (non-empty) or both absent (null or empty). *)
Theorem tokens_stay_paired (E : env) :
  (forall url : string, paired (init url))
  /\ (forall (ops : list op) (c : client) (w : world) (c' : client)
             (w' : world),
        paired c ->
        run E ops c w = (c', w') ->
        delivered_together E (length (sent w)) w' ->
        paired c').
Proof.
  split; [intros url; reflexivity|].
  induction ops as [|o ops IH]; intros c w c' w' Hpaired Hrun Hd;
    cbn [run] in Hrun.
  - inversion Hrun; subst. exact Hpaired.
  - destruct (exec o E c w) as [[res c1] w1] eqn:Hexec.
    destruct (exec_effect _ _ _ _ _ _ _ Hexec) as (_ & (new1 & Hs1 & _) & _).
    destruct (run_sent _ _ _ _ _ _ Hrun) as (new2 & Hs2).
    apply (IH c1 w1 c' w'); [|exact Hrun|].
    + apply (exec_paired E o c w res c1 w1 Hpaired Hexec).
      apply (delivered_together_earlier E (length (sent w)) _ w1 w' new2);
        [lia|exact Hs2|exact Hd].
    + apply (delivered_together_earlier E (length (sent w)) _ w' w' []);
        [rewrite Hs1, length_app; lia|reflexivity|exact Hd].
Qed.

Lemma tokens_stay_paired_witness :
  paired (init default_base_url)
  /\ paired (cleared client2).
Proof.
  destruct (tokens_stay_paired scenario) as (Hinit & Hrun).
  split; [apply Hinit|].
  apply (Hrun [Login "testuser" "password123" "my-tenant"; EnsureValid; Logout]
           client0 world0 (cleared client2)
           (mkWorld 4
              [revoke_request client2 (bearer_headers client2);
               refresh_request client1;
               login_request client0 "testuser" "password123" "my-tenant"]
              ("✅ Logged out successfully"
                 :: stdout (refreshed_world client1 world1)))).
  - reflexivity.
  - vm_compute. reflexivity.
  - intros n req r d _ (Hn & _ & Hreply & _ & Hjson).
    destruct n as [|[|n]];
      cbn [scenario server] in Hreply; inversion Hreply; subst r;
      cbn [grant json] in Hjson; [| |destruct n; discriminate Hjson];
      inversion Hjson; subst d;
      (right; split; [discriminate|reflexivity]).
Defined.

(** ** Rotation *)







(** What _get_headers sends, and what it does to the fields. *)
Lemma get_headers_token_effect (E : env) (c : client) (w : world)
    (res : result (list (string * string))) (c' : client) (w' : world) :
  _get_headers E c w = (res, c', w') ->
  (sent w' = sent w
   \/ (sent w' = refresh_request c :: sent w
       /\ truthy (refresh_token c) = true))
  /\ token_effect E c w c' w'.
Proof.
  intros Hrun. apply get_headers_effect in Hrun.
  destruct Hrun as (_ & [(Hs & Hc)|(Hs & Hheld & Hc)]).
  - split; [left; exact Hs|left; exact Hc].
  - split; [right; split; assumption|].
    destruct Hc as [Hc|(r & d & Hreply & Hstatus & Hjson & Hg)];
      [left; exact Hc|right].
    exists (refresh_request c), r, d. split; [|exact Hg].
    split; [apply (nth_sent_new w w' []); exact Hs|].
    split; [apply token_request_refresh|]. auto.
Qed.






(** ** The expiry time *)

(** C9, on the code. A first login returns, granted a1/r1 for 1 second at
    time 100: token_expires_at is 101. A second login is answered 200 at
    time 200 with a2/r2 for 60 seconds in a body without "user": lines
    46-48 assign all three fields and line 50 raises KeyError, so the
    login fails with token_expires_at 260. A refresh is then answered 200
    with a3/r3 and an expires_in of 10^400: lines 73-74 replace the tokens
    and line 75 raises OverflowError. token_expires_at is still 260: it
    belongs neither to the last call that returned (101) nor to the last
    200 response, and not to the tokens now stored. *)
Lemma expiry_from_a_call_that_raised :
  login "testuser" "password123" "my-tenant" incomplete client0 world0
  = (Return tt, client1, world1)
  /\ login "testuser" "password123" "my-tenant" incomplete client1 world1
     = (Raise (KeyError "user"),
        mkClient default_base_url (Some "a2") (Some "r2") 260%float,
        after_tick
          (after_send
             (login_request client1 "testuser" "password123" "my-tenant")
             world1))
  /\ refresh_access_token incomplete
       (mkClient default_base_url (Some "a2") (Some "r2") 260%float)
       (after_tick
          (after_send
             (login_request client1 "testuser" "password123" "my-tenant")
             world1))
     = (Raise OverflowError,
        mkClient default_base_url (Some "a3") (Some "r3") 260%float,
        after_tick
          (after_send
             (refresh_request
                (mkClient default_base_url (Some "a2") (Some "r2") 260%float))
             (after_tick
                (after_send
                   (login_request client1 "testuser" "password123" "my-tenant")
                   world1))))
  /\ token_expires_at client1 = 101%float
  /\ token_expires_at
       (mkClient default_base_url (Some "a3") (Some "r3") 260%float)
     <> token_expires_at client1.
Proof.
  split; [vm_compute; reflexivity|].
  split; [vm_compute; reflexivity|].
  split; [vm_compute; reflexivity|].
  split; [reflexivity|].
  cbn [token_expires_at client1]. intros Heq.
  assert (Hle : (260 <=? 101)%float = (101 <=? 101)%float)
    by (rewrite Heq; reflexivity).
  vm_compute in Hle. discriminate Hle.
Qed.

(** C9, amended. On a 200 response whose body has the keys the method
    reads, with an expires_in that a float can hold, login and
    refresh_access_token return; and after every login and every
    refresh_access_token that returns, token_expires_at is the clock
    reading taken after the 200 response arrived plus the expires_in of
    that response, the integer converted to a float and the sum taken in
    floating point. Nothing else assigns it: whatever an operation does,
    returning or raising, token_expires_at is afterwards what it was, or
    is that sum for the 200 response the operation received and a clock
    reading the operation made. *)
Theorem expiry_is_now_plus_expires_in (E : env) (c : client) (w : world) :
  (forall (u p t : string) (r : response) (d : body) (e : Z) (f : float),
     server E (length (sent w)) (login_request c u p t) = Responds r ->
     status_code r = 200 ->
     json r = Some (Object d) ->
     j_access_token d <> Missing ->
     j_refresh_token d <> Missing ->
     j_expires_in d = Value e ->
     float_of_int e = Some f ->
     announces d ->
     exists (c' : client) (w' : world),
       login u p t E c w = (Return tt, c', w')
       /\ token_expires_at c' = (clock E (ticks w) + f)%float)
  /\ (forall (u p t : string) (c' : client) (w' : world),
        login u p t E c w = (Return tt, c', w') ->
        exists (r : response) (d : body) (e : Z) (f : float),
          server E (length (sent w)) (login_request c u p t) = Responds r
          /\ status_code r = 200
          /\ json r = Some (Object d)
          /\ j_expires_in d = Value e
          /\ float_of_int e = Some f
          /\ token_expires_at c' = (clock E (ticks w) + f)%float)
  /\ (forall (r : response) (d : body) (e : Z) (f : float),
        truthy (refresh_token c) = true ->
        server E (length (sent w)) (refresh_request c) = Responds r ->
        status_code r = 200 ->
        json r = Some (Object d) ->
        j_access_token d <> Missing ->
        j_refresh_token d <> Missing ->
        j_expires_in d = Value e ->
        float_of_int e = Some f ->
        exists (c' : client) (w' : world),
          refresh_access_token E c w = (Return tt, c', w')
          /\ token_expires_at c' = (clock E (ticks w) + f)%float)
  /\ (forall (c' : client) (w' : world),
        refresh_access_token E c w = (Return tt, c', w') ->
        exists (r : response) (d : body) (e : Z) (f : float),
          server E (length (sent w)) (refresh_request c) = Responds r
          /\ status_code r = 200
          /\ json r = Some (Object d)
          /\ j_expires_in d = Value e
          /\ float_of_int e = Some f
          /\ token_expires_at c' = (clock E (ticks w) + f)%float)
  /\ (forall (o : op) (res : result unit) (c' : client) (w' : world),
        exec o E c w = (res, c', w') ->
        token_expires_at c' = token_expires_at c
        \/ exists (req : request) (r : response) (d : body) (e : Z)
                  (f : float) (n : nat),
             exchange E w' (length (sent w)) req r d
             /\ j_expires_in d = Value e
             /\ float_of_int e = Some f
             /\ (ticks w <= n < ticks w')%nat
             /\ token_expires_at c' = (clock E n + f)%float).
Proof.
  split; [|split; [|split; [|split]]].
  - intros u p t r d e f Hreply Hstatus Hjson Ha Hr He Hf Hann.
    eexists. eexists. split.
    + apply (login_returns E u p t c w r d e f); assumption.
    + reflexivity.
  - intros u p t c' w' Hrun.
    destruct (login_returns_inv _ _ _ _ _ _ _ _ Hrun)
      as (r & d & e & f & Hreply & Hstatus & Hjson & _ & _ & He & Hf & Hc
          & _).
    exists r, d, e, f. subst c'. repeat split; assumption.
  - intros r d e f Hheld Hreply Hstatus Hjson Ha Hr He Hf.
    eexists. eexists. split.
    + apply (refresh_returns E c w r d e f); assumption.
    + reflexivity.
  - intros c' w' Hrun.
    destruct (refresh_returns_inv _ _ _ _ _ Hrun)
      as (r & d & e & f & _ & Hreply & Hstatus & Hjson & _ & _ & He & Hf
          & Hc & _).
    exists r, d, e, f. subst c'. repeat split; assumption.
  - intros o res c' w' Hexec.
    assert (Heffect : forall c1,
              token_effect E c w c1 w' ->
              token_expires_at c1 = token_expires_at c
              \/ exists (req : request) (r : response) (d : body) (e : Z)
                        (f : float) (n : nat),
                   exchange E w' (length (sent w)) req r d
                   /\ j_expires_in d = Value e
                   /\ float_of_int e = Some f
                   /\ (ticks w <= n < ticks w')%nat
                   /\ token_expires_at c1 = (clock E n + f)%float).
    { intros c1 [->|(req & r & d & Hx & _ & Hg)]; [left; reflexivity|].
      destruct Hg as [[-> _]|(_ & [->|(e & f & n & He & Hf & Hn & ->)])];
        [left; reflexivity|left; reflexivity|right].
      exists req, r, d, e, f, n. split; [exact Hx|]. split; [exact He|].
      split; [exact Hf|]. split; [exact Hn|reflexivity]. }
    destruct (exec_effect _ _ _ _ _ _ _ Hexec) as (_ & _ & [Hc|(c1 & -> & Hc)]);
      [apply Heffect, Hc|apply (Heffect c1 Hc)].
Qed.

Lemma expiry_is_now_plus_expires_in_witness :
  (exists (c' : client) (w' : world),
     login "testuser" "password123" "my-tenant" scenario client0 world0
     = (Return tt, c', w')
     /\ token_expires_at c' = (clock scenario (ticks world0) + 1)%float)
  /\ (exists (r : response) (d : body) (e : Z) (f : float),
        server scenario (length (sent world0))
          (login_request client0 "testuser" "password123" "my-tenant")
        = Responds r
        /\ status_code r = 200
        /\ json r = Some (Object d)
        /\ j_expires_in d = Value e
        /\ float_of_int e = Some f
        /\ token_expires_at client1 = (clock scenario (ticks world0) + f)%float)
  /\ (exists (c' : client) (w' : world),
        refresh_access_token scenario client1 world1 = (Return tt, c', w')
        /\ token_expires_at c' = (clock scenario (ticks world1) + 60)%float)
  /\ (exists (r : response) (d : body) (e : Z) (f : float),
        server scenario (length (sent world1)) (refresh_request client1)
        = Responds r
        /\ status_code r = 200
        /\ json r = Some (Object d)
        /\ j_expires_in d = Value e
        /\ float_of_int e = Some f
        /\ token_expires_at client2 = (clock scenario (ticks world1) + f)%float)
  /\ (token_expires_at client2 = token_expires_at client1
      \/ exists (req : request) (r : response) (d : body) (e : Z)
                (f : float) (n : nat),
           exchange scenario (refreshed_world client1 (after_tick world1))
             (length (sent world1)) req r d
           /\ j_expires_in d = Value e
           /\ float_of_int e = Some f
           /\ (ticks world1 <= n
               < ticks (refreshed_world client1 (after_tick world1)))%nat
           /\ token_expires_at client2 = (clock scenario n + f)%float).
Proof.
  destruct (expiry_is_now_plus_expires_in scenario client0 world0)
    as (Hlogin & Hlogin_inv & _).
  destruct (expiry_is_now_plus_expires_in scenario client1 world1)
    as (_ & _ & Hrefresh & Hrefresh_inv & Hexec).
  split; [|split; [|split; [|split]]].
  - apply (Hlogin "testuser" "password123" "my-tenant" (grant "a1" "r1" 1)
             (tokens "a1" "r1" 1) 1 1%float);
      try reflexivity; try discriminate.
    split; [exists (mkUser (Value "testuser")); split;
            [reflexivity|discriminate]|discriminate].
  - apply (Hlogin_inv "testuser" "password123" "my-tenant" client1 world1).
    vm_compute. reflexivity.
  - apply (Hrefresh (grant "a2" "r2" 60) (tokens "a2" "r2" 60) 60 60%float);
      try reflexivity; try discriminate.
  - apply (Hrefresh_inv client2 (refreshed_world client1 world1)).
    vm_compute. reflexivity.
  - apply (Hexec EnsureValid (Return tt) client2
             (refreshed_world client1 (after_tick world1))).
    vm_compute. reflexivity.
Defined.

(** ** Two callers of _get_headers *)

(** refresh_access_token, cut where its request has left. *)
Lemma refresh_access_token_cut (E : env) (c : client) (w : world) :
  refresh_access_token E c w
  = if negb (truthy (refresh_token c)) then
      (Raise (PyException "No refresh token available"), c, w)
    else
      refresh_finish (length (sent w)) (refresh_request c) E c
        (after_send (refresh_request c) w).
Proof.
  unfold refresh_access_token, bind, get_self, send, after_send.
  destruct (negb (truthy (refresh_token c))); reflexivity.
Qed.

(** A thread that runs alone does what _get_headers does: the cut at the
    network call changes nothing for a single caller. *)
Lemma thread_alone (E : env) (c : client) (w : world) :
  match thread_step E Ready c w with
  | (t, c1, w1) => thread_step E t c1 w1
  end
  = finish _get_headers E c w.
Proof.
  unfold finish at 1. rewrite get_headers_outcome.
  cbn [thread_step]. rewrite needs_refresh_outcome.
  destruct (live E c w) eqn:Hlive; cbn [negb].
  - unfold finish, bind, get_self, ret. cbn [thread_step].
    apply andb_prop in Hlive. destruct Hlive as [Hheld _].
    unfold checked. rewrite Hheld. reflexivity.
  - rewrite refresh_access_token_cut.
    destruct (negb (truthy (refresh_token c))) eqn:Hheld.
    + cbn [thread_step]. reflexivity.
    + unfold send at 1. cbn [thread_step]. unfold finish, bind, after_send.
      destruct (refresh_finish _ _ E c _) as [[[[]|e] c1] w1]; reflexivity.
Qed.

(** A caller that finds the token absent or expired while a refresh token
    is held leaves its check blocked on its own refresh request. *)
Lemma ready_step_stale (E : env) (c : client) (w : world) :
  truthy (refresh_token c) = true ->
  live E c w = false ->
  thread_step E Ready c w
  = (Blocked (length (sent w)) (refresh_request c), c,
     after_send (refresh_request c) (checked c w)).
Proof.
  intros Hheld Hstale. cbn [thread_step].
  rewrite needs_refresh_outcome, Hstale. cbn [negb]. rewrite Hheld.
  cbn [negb]. unfold send, after_send. rewrite checked_sent. reflexivity.
Qed.

(** Two callers that both find the token absent or expired, the second
    before the first has its answer. *)
Lemma overlapping_steps (E : env) (c : client) (w : world) :
  truthy (refresh_token c) = true ->
  live E c w = false ->
  live E c (checked c w) = false ->
  schedule E [First; Second] (two_callers c w)
  = mkSystem (Blocked (length (sent w)) (refresh_request c))
      (Blocked (S (length (sent w))) (refresh_request c)) c
      (after_send (refresh_request c)
         (checked c (after_send (refresh_request c) (checked c w)))).
Proof.
  intros Hheld Hfirst Hsecond.
  assert (Hstep1 : system_step E First (two_callers c w)
                   = mkSystem (Blocked (length (sent w)) (refresh_request c))
                       Ready c (after_send (refresh_request c) (checked c w))).
  { unfold system_step, two_callers. cbn [first second shared outside].
    rewrite (ready_step_stale E c w Hheld Hfirst). reflexivity. }
  cbn [schedule]. rewrite Hstep1.
  unfold system_step. cbn [first second shared outside].
  assert (Hlater : live E c (after_send (refresh_request c) (checked c w))
                   = false) by exact Hsecond.
  rewrite (ready_step_stale E c _ Hheld Hlater).
  cbn [after_send sent length]. rewrite checked_sent. reflexivity.
Qed.

(** C2, on the code. After login has granted a1/r1 for 1 unit, two callers
    enter _get_headers at time 200. Each finds the token expired and sends
    its own refresh request with r1 before the other's answer has arrived:
    two refresh exchanges take place. The first is granted a2/r2; the
    second, sent with the consumed r1, is answered 401 and raises. *)
Lemma two_callers_refresh_twice :
  refresh_count client1 world1 = 0%nat
  /\ (let s := schedule rotating [First; Second] (two_callers client1 world1) in
      first s = Blocked 1 (refresh_request client1)
      /\ second s = Blocked 2 (refresh_request client1)
      /\ refresh_count client1 (outside s) = 2%nat)
  /\ (let s := schedule rotating [First; Second; First; Second]
                 (two_callers client1 world1) in
      first s = Done (Return [("Content-Type", "application/json");
                              ("Authorization", "Bearer a2")])
      /\ second s
         = Done (Raise (PyException "Token refresh failed: invalid token"))
      /\ refresh_count client1 (outside s) = 2%nat).
Proof.
  split; [vm_compute; reflexivity|].
  split; vm_compute; repeat split; reflexivity.
Qed.

(** C2, amended. The client has no lock around the check and the
    refresh.
    - Serial calls: when the second call starts after the first has
      returned headers and finds the access token present and unexpired,
      it sends nothing, changes no field and returns the same headers as
      the first; the two calls together have sent at most one request, a
      refresh request.
    - Overlapping calls: when a refresh token is held and each of the two
      calls finds the access token absent or expired at its own check,
      the second before the first has its answer, each sends its own
      refresh request with the same refresh token: two refresh
      exchanges. *)
Theorem serial_callers_refresh_once (E : env) (c : client) (w : world)
    (h : list (string * string)) :
  (let s1 := schedule E [First; First] (two_callers c w) in
   let s2 := schedule E [First; First; Second] (two_callers c w) in
   first s1 = Done (Return h) ->
   live E (shared s1) (outside s1) = true ->
   first s2 = Done (Return h)
   /\ second s2 = Done (Return h)
   /\ shared s2 = shared s1
   /\ sent (outside s2) = sent (outside s1)
   /\ (sent (outside s2) = sent w
       \/ sent (outside s2) = refresh_request c :: sent w))
  /\ (let s := schedule E [First; Second] (two_callers c w) in
      truthy (refresh_token c) = true ->
      live E c w = false ->
      live E c (checked c w) = false ->
      first s = Blocked (length (sent w)) (refresh_request c)
      /\ second s = Blocked (S (length (sent w))) (refresh_request c)
      /\ shared s = c
      /\ sent (outside s)
         = refresh_request c :: refresh_request c :: sent w
      /\ refresh_count c (outside s) = (2 + refresh_count c w)%nat).
Proof.
  split.
  - cbn [schedule two_callers system_step first second shared outside].
    pose proof (thread_alone E c w) as Halone.
    destruct (thread_step E Ready c w) as [[t1 c1] w1].
    cbn [first second shared outside]. rewrite Halone. unfold finish.
    destruct (_get_headers E c w) as [[r c2] w2] eqn:Hrun.
    cbn [first second shared outside].
    intros Hdone Hlive. inversion Hdone; subst r.
    cbn [thread_step]. rewrite needs_refresh_outcome, Hlive. cbn [negb].
    unfold finish, bind, get_self, ret. cbn [first second shared outside].
    assert (Hh : h = bearer_headers c2).
    { rewrite get_headers_outcome in Hrun.
      destruct (live E c w); [inversion Hrun; reflexivity|].
      destruct (refresh_access_token E c (checked c w)) as [[[[]|e] c3] w3];
        inversion Hrun; reflexivity. }
    assert (Hsent : sent w2 = sent w \/ sent w2 = refresh_request c :: sent w).
    { apply get_headers_effect in Hrun.
      destruct Hrun as (_ & [(Hs & _)|(Hs & _)]); auto. }
    subst h. rewrite checked_sent.
    split; [reflexivity|]. split; [reflexivity|]. split; [reflexivity|].
    split; [reflexivity|exact Hsent].
  - intros s Hheld Hfirst Hsecond. subst s.
    rewrite (overlapping_steps E c w Hheld Hfirst Hsecond).
    cbn [first second shared outside].
    assert (Hsent : sent (after_send (refresh_request c)
                            (checked c (after_send (refresh_request c)
                                          (checked c w))))
                    = refresh_request c :: refresh_request c :: sent w).
    { cbn [after_send sent]. rewrite checked_sent. cbn [after_send sent].
      rewrite checked_sent. reflexivity. }
    split; [reflexivity|]. split; [reflexivity|]. split; [reflexivity|].
    split; [exact Hsent|].
    unfold refresh_count. rewrite Hsent. cbn [filter].
    assert (Hurl : is_refresh c (refresh_request c) = true)
      by (unfold is_refresh, refresh_request; cbn [r_url];
          apply String.eqb_refl).
    rewrite Hurl. reflexivity.
Qed.

Lemma serial_callers_refresh_once_witness :
  (let s1 := schedule scenario [First; First] (two_callers client1 world1) in
   let s2 := schedule scenario [First; First; Second]
               (two_callers client1 world1) in
   first s2 = Done (Return (bearer_headers client2))
   /\ second s2 = Done (Return (bearer_headers client2))
   /\ shared s2 = shared s1
   /\ sent (outside s2) = sent (outside s1)
   /\ (sent (outside s2) = sent world1
       \/ sent (outside s2) = refresh_request client1 :: sent world1))
  /\ (let s := schedule scenario [First; Second]
                 (two_callers client1 world1) in
      first s = Blocked (length (sent world1)) (refresh_request client1)
      /\ second s
         = Blocked (S (length (sent world1))) (refresh_request client1)
      /\ shared s = client1
      /\ sent (outside s)
         = refresh_request client1 :: refresh_request client1 :: sent world1
      /\ refresh_count client1 (outside s)
         = (2 + refresh_count client1 world1)%nat).
Proof.
  destruct (serial_callers_refresh_once scenario client1 world1
              (bearer_headers client2)) as [Hserial Hoverlap].
  split.
  - apply Hserial.
    + vm_compute. reflexivity.
    + vm_compute. reflexivity.
  - apply Hoverlap.
    + reflexivity.
    + vm_compute. reflexivity.
    + vm_compute. reflexivity.
Defined.

(** * Further properties of the client *)

(** ** Failures and the fields *)

Lemma stored_raises (E : env) (data : document) (c : client) (w : world)
    (e : exn) (c' : client) (w' : world) :
  stored E data c w = (Raise e, c', w') ->
  (exists key, e = KeyError key) \/ e = TypeError \/ e = OverflowError.
Proof.
  unfold stored. destruct data as [|d];
    [intros Heq; inversion Heq; auto|].
  destruct (j_access_token d);
    [intros Heq; inversion Heq; eauto| |];
    (destruct (j_refresh_token d);
       [intros Heq; inversion Heq; eauto| |]);
    (destruct (j_expires_in d) as [| |z];
       [| |destruct (float_of_int z)]);
    intros Heq; inversion Heq; eauto.
Qed.

Lemma announced_raises (d : body) (out : list string) (e : exn) :
  fst (announced d out) = Raise e ->
  (exists key, e = KeyError key) \/ e = TypeError.
Proof.
  unfold announced.
  destruct (j_user d) as [| |usr]; cbn [fst];
    [intros Heq; inversion Heq; eauto|intros Heq; inversion Heq; eauto|].
  destruct (u_username usr); cbn [fst];
    [intros Heq; inversion Heq; eauto| |];
    (destruct (j_expires_in d); cbn [fst];
       [intros Heq; inversion Heq; eauto| |]);
    (destruct (j_refresh_expires_in d); cbn [fst];
       intros Heq; inversion Heq; eauto).
Qed.

(** An exception that is none of those the handling of the body raises. *)
Lemma refresh_raise_before_body (E : env) (c : client) (w : world) (e : exn)
    (c' : client) (w' : world) :
  refresh_access_token E c w = (Raise e, c', w') ->
  (forall key, e <> KeyError key) -> e <> TypeError -> e <> OverflowError ->
  c' = c.
Proof.
  rewrite refresh_access_token_outcome. unfold refresh_outcome.
  intros Hrun Hkey Htype Hover. revert Hrun.
  destruct (negb (truthy (refresh_token c)));
    [intros Heq; inversion Heq; reflexivity|].
  destruct (server E _ _) as [r|]; [|intros Heq; inversion Heq; reflexivity].
  destruct (status_code r =? 200); [|intros Heq; inversion Heq; reflexivity].
  destruct (json r) as [data|]; [|intros Heq; inversion Heq; reflexivity].
  destruct (stored E data c _) as [[[[]|e1] c1] w1] eqn:Hstored;
    [discriminate|].
  intros Heq. inversion Heq; subst.
  destruct (stored_raises _ _ _ _ _ _ _ Hstored) as [(key & ->)|[->| ->]];
    [destruct (Hkey key eq_refl)|destruct (Htype eq_refl)
    |destruct (Hover eq_refl)].
Qed.

Lemma login_token_effect (E : env) (u p t : string) (c : client) (w : world)
    (res : result unit) (c' : client) (w' : world) :
  login u p t E c w = (res, c', w') -> token_effect E c w c' w'.
Proof.
  intros Hrun. apply login_effect in Hrun. destruct Hrun as (_ & Hs & Hc).
  destruct Hc as [Hc|(r & d & Hreply & Hstatus & Hjson & Hg)];
    [left; exact Hc|right].
  exists (login_request c u p t), r, d. split; [|exact Hg].
  split; [apply (nth_sent_new w w' []); exact Hs|].
  split; [apply token_request_login|]. auto.
Qed.

Lemma refresh_token_effect (E : env) (c : client) (w : world)
    (res : result unit) (c' : client) (w' : world) :
  refresh_access_token E c w = (res, c', w') -> token_effect E c w c' w'.
Proof.
  intros Hrun. apply refresh_effect in Hrun.
  destruct Hrun as (_ & [(_ & Hc)|(Hs & _ & Hc)]); [left; exact Hc|].
  destruct Hc as [Hc|(r & d & Hreply & Hstatus & Hjson & Hg)];
    [left; exact Hc|right].
  exists (refresh_request c), r, d. split; [|exact Hg].
  split; [apply (nth_sent_new w w' []); exact Hs|].
  split; [apply token_request_refresh|]. auto.
Qed.

(** X1. When login, refresh_access_token or _get_headers raises an
    exception other than KeyError, TypeError and OverflowError - the
    client's own Exception for a status other than 200 or for a missing
    refresh token, ConnectionError, JSONDecodeError - every field of the
    client is what it was before the call. Whatever the exception, the
    fields are as they were or carry some of the assignments of lines
    46-48 (or 73-75), in their order, from the 200 response the call
    received: the access token alone when the body has no refresh_token,
    or both tokens, or both tokens and the expiry. *)
Theorem raise_before_the_body_leaves_client_unchanged (E : env) (o : op)
    (c : client) (w : world) (e : exn) (c' : client) (w' : world) :
  o <> Logout ->
  exec o E c w = (Raise e, c', w') ->
  ((forall key, e <> KeyError key) -> e <> TypeError -> e <> OverflowError ->
   c' = c)
  /\ token_effect E c w c' w'.
Proof.
  intros Hop. destruct o as [u p t| | |]; cbn [exec];
    [| | |contradiction].
  - intros Hrun. split; [|exact (login_token_effect _ _ _ _ _ _ _ _ _ Hrun)].
    intros Hkey Htype Hover. revert Hrun.
    rewrite login_is_login_outcome. unfold login_outcome.
    destruct (server E _ _) as [r|]; [|intros Heq; inversion Heq; reflexivity].
    destruct (status_code r =? 200);
      [|intros Heq; inversion Heq; reflexivity].
    destruct (json r) as [data|]; [|intros Heq; inversion Heq; reflexivity].
    destruct (stored E data c _) as [[[[]|e1] c1] w1] eqn:Hstored.
    + destruct data as [|d];
        [intros Heq; inversion Heq; subst; destruct (Htype eq_refl)|].
      destruct (fst (announced d (stdout w1))) as [[]|e1] eqn:Hout;
        [discriminate|].
      intros Heq. inversion Heq; subst.
      destruct (announced_raises _ _ _ Hout) as [(key & ->)| ->];
        [destruct (Hkey key eq_refl)|destruct (Htype eq_refl)].
    + intros Heq. inversion Heq; subst.
      destruct (stored_raises _ _ _ _ _ _ _ Hstored) as [(key & ->)|[->| ->]];
        [destruct (Hkey key eq_refl)|destruct (Htype eq_refl)
        |destruct (Hover eq_refl)].
  - intros Hrun. split; [|exact (refresh_token_effect _ _ _ _ _ _ Hrun)].
    intros Hkey Htype Hover.
    exact (refresh_raise_before_body _ _ _ _ _ _ Hrun Hkey Htype Hover).
  - unfold bind.
    destruct (_get_headers E c w) as [[[h|e1] c1] w1] eqn:Hrun;
      [discriminate|].
    intros Heq. injection Heq as He Hc' Hw'. subst e1 c1 w1.
    split;
      [|exact (proj2 (get_headers_token_effect _ _ _ _ _ _ Hrun))].
    intros Hkey Htype Hover. revert Hrun. rewrite get_headers_outcome.
    destruct (live E c w); [discriminate|].
    destruct (refresh_access_token E c (checked c w))
      as [[[[]|e1] c1] w1] eqn:Hrun; [discriminate|].
    intros Heq. inversion Heq; subst.
    exact (refresh_raise_before_body _ _ _ _ _ _ Hrun Hkey Htype Hover).
Qed.

Lemma raise_before_the_body_leaves_client_unchanged_witness :
  exec EnsureValid rejecting client1 world1
  = (Raise (PyException "Token refresh failed: invalid token"), client1,
     after_send (refresh_request client1) (after_tick world1))
  /\ ((forall key,
         PyException "Token refresh failed: invalid token" <> KeyError key) ->
      PyException "Token refresh failed: invalid token" <> TypeError ->
      PyException "Token refresh failed: invalid token" <> OverflowError ->
      client1 = client1)
  /\ token_effect rejecting client1 world1 client1
       (after_send (refresh_request client1) (after_tick world1)).
Proof.
  assert (Hrun : exec EnsureValid rejecting client1 world1
                 = (Raise (PyException "Token refresh failed: invalid token"),
                    client1,
                    after_send (refresh_request client1) (after_tick world1)))
    by (vm_compute; reflexivity).
  split; [exact Hrun|].
  apply (raise_before_the_body_leaves_client_unchanged rejecting EnsureValid
           client1 world1
           (PyException "Token refresh failed: invalid token") client1
           (after_send (refresh_request client1) (after_tick world1))).
  - discriminate.
  - exact Hrun.
Defined.

(** ** A client without tokens *)

(** X2. On a client that holds neither token - a fresh one, or one that
    logout has cleared - _get_headers and refresh_access_token raise "No
    refresh token available" and logout returns at once; none of them
    sends a request, reads the clock, prints or changes a field. Only
    login leaves that state. *)
Theorem unauthenticated_calls_are_local (E : env) (c : client) (w : world) :
  unauthenticated c ->
  _get_headers E c w
  = (Raise (PyException "No refresh token available"), c, w)
  /\ refresh_access_token E c w
     = (Raise (PyException "No refresh token available"), c, w)
  /\ logout E c w = (Return tt, c, w).
Proof.
  intros [Haccess Hrefresh].
  assert (Hno : truthy (refresh_token c) = false) by (rewrite Hrefresh; reflexivity).
  assert (Hlocal : refresh_access_token E c w
                   = (Raise (PyException "No refresh token available"), c, w)).
  { unfold refresh_access_token, bind, get_self. rewrite Hno. reflexivity. }
  split; [|split].
  - rewrite get_headers_outcome. unfold live, checked.
    rewrite Haccess. cbn [truthy andb]. rewrite Hlocal. reflexivity.
  - exact Hlocal.
  - rewrite logout_outcome, Hno. reflexivity.
Qed.

Lemma unauthenticated_calls_are_local_witness :
  _get_headers scenario client0 world0
  = (Raise (PyException "No refresh token available"), client0, world0)
  /\ refresh_access_token scenario client0 world0
     = (Raise (PyException "No refresh token available"), client0, world0)
  /\ logout scenario client0 world0 = (Return tt, client0, world0).
Proof.
  apply (unauthenticated_calls_are_local scenario client0 world0).
  split; reflexivity.
Defined.

(** ** logout, further *)

(** X3. logout is idempotent: once a logout has returned, another logout
    returns too without sending anything or changing anything. *)
Theorem logout_twice (E : env) (c : client) (w : world) (c' : client)
    (w' : world) :
  logout E c w = (Return tt, c', w') ->
  logout E c' w' = (Return tt, c', w').
Proof.
  rewrite logout_outcome.
  destruct (negb (truthy (refresh_token c))) eqn:Hguard.
  - intros Heq. inversion Heq; subst.
    rewrite logout_outcome, Hguard. reflexivity.
  - destruct (_get_headers E c w) as [[[h|e] c1] w1]; [|discriminate].
    destruct (server E _ _) as [r|]; [|discriminate].
    intros Heq. inversion Heq; subst.
    rewrite logout_outcome. reflexivity.
Qed.

Lemma logout_twice_witness :
  logout rejecting client1 world0
  = (Return tt, cleared client1,
     mkWorld 1 [revoke_request client1 (bearer_headers client1)]
       ["✅ Logged out successfully"])
  /\ logout rejecting (cleared client1)
       (mkWorld 1 [revoke_request client1 (bearer_headers client1)]
          ["✅ Logged out successfully"])
     = (Return tt, cleared client1,
        mkWorld 1 [revoke_request client1 (bearer_headers client1)]
          ["✅ Logged out successfully"]).
Proof.
  assert (Hrun : logout rejecting client1 world0
                 = (Return tt, cleared client1,
                    mkWorld 1 [revoke_request client1 (bearer_headers client1)]
                      ["✅ Logged out successfully"]))
    by (vm_compute; reflexivity).
  split; [exact Hrun|].
  apply (logout_twice rejecting client1 world0). exact Hrun.
Defined.

(** X4. When logout finds the access token absent or expired and returns,
    it has first refreshed: the revoke request follows the refresh request
    and carries the refresh token and the bearer token of the refresh
    response, not the ones held when logout was called (the [headers]
    argument of line 165 is evaluated before the [json] argument of
    line 166). *)
Theorem logout_revokes_the_rotated_token (E : env) (c : client) (w : world)
    (c' : client) (w' : world) :
  truthy (refresh_token c) = true ->
  live E c w = false ->
  logout E c w = (Return tt, c', w') ->
  exists (r : response) (d : body) (req : request),
    server E (length (sent w)) (refresh_request c) = Responds r
    /\ json r = Some (Object d)
    /\ j_access_token d <> Missing
    /\ j_refresh_token d <> Missing
    /\ sent w' = req :: refresh_request c :: sent w
    /\ r_url req = base_url c ++ "/auth/token/revoke"
    /\ r_json req = [("refresh_token", field_value (j_refresh_token d))]
    /\ r_headers req
       = [("Content-Type", "application/json");
          ("Authorization",
           "Bearer " ++ py_str (field_value (j_access_token d)))].
Proof.
  intros Hheld Hstale. rewrite logout_outcome, Hheld. cbn [negb].
  rewrite get_headers_outcome, Hstale.
  destruct (refresh_access_token E c (checked c w))
    as [[[[]|e] c1] w1] eqn:Hrun; [|discriminate].
  destruct (refresh_returns_inv _ _ _ _ _ Hrun)
    as (r & d & e & f & _ & Hreply & _ & Hjson & Ha & Hr & _ & _ & Hc & Hw).
  rewrite checked_sent in Hreply.
  assert (Hsent : sent w1 = refresh_request c :: sent w)
    by (subst w1; cbn [refreshed_world sent]; rewrite checked_sent;
        reflexivity).
  destruct (server E (length (sent w1)) _) as [r2|]; [|discriminate].
  intros Heq. inversion Heq; subst c' w'.
  exists r, d, (revoke_request c1 (bearer_headers c1)).
  split; [exact Hreply|]. split; [exact Hjson|].
  split; [exact Ha|]. split; [exact Hr|].
  split; [destruct (status_code r2 =? 200); cbn [after_send sent];
          rewrite Hsent; reflexivity|].
  subst c1. repeat split; reflexivity.
Qed.

Lemma logout_revokes_the_rotated_token_witness :
  exists (r : response) (d : body) (req : request),
    server scenario (length (sent world1)) (refresh_request client1)
    = Responds r
    /\ json r = Some (Object d)
    /\ j_access_token d <> Missing
    /\ j_refresh_token d <> Missing
    /\ sent (mkWorld 3
               [revoke_request client2 (bearer_headers client2);
                refresh_request client1;
                login_request client0 "testuser" "password123" "my-tenant"]
               ("✅ Logged out successfully"
                  :: stdout (refreshed_world client1 world1)))
       = req :: refresh_request client1 :: sent world1
    /\ r_url req = base_url client1 ++ "/auth/token/revoke"
    /\ r_json req = [("refresh_token", field_value (j_refresh_token d))]
    /\ r_headers req
       = [("Content-Type", "application/json");
          ("Authorization",
           "Bearer " ++ py_str (field_value (j_access_token d)))].
Proof.
  apply (logout_revokes_the_rotated_token scenario client1 world1
           (cleared client2)).
  - reflexivity.
  - vm_compute. reflexivity.
  - vm_compute. reflexivity.
Defined.

(** X5. A logout that raises has run neither line 172 nor line 173: the
    refresh token was held when it was called, and the client is exactly
    as _get_headers left it. The exception is the one _get_headers raised,
    or ConnectionError from the revoke request, sent with the headers
    _get_headers returned and the refresh token then stored. *)
Theorem logout_raise_clears_nothing (E : env) (c : client) (w : world)
    (e : exn) (c' : client) (w' : world) :
  logout E c w = (Raise e, c', w') ->
  truthy (refresh_token c) = true
  /\ (_get_headers E c w = (Raise e, c', w')
      \/ exists (h : list (string * string)) (w1 : world),
           _get_headers E c w = (Return h, c', w1)
           /\ server E (length (sent w1)) (revoke_request c' h) = Unreachable
           /\ e = ConnectionError
           /\ w' = after_send (revoke_request c' h) w1).
Proof.
  rewrite logout_outcome.
  destruct (truthy (refresh_token c)) eqn:Hheld; cbn [negb]; [|discriminate].
  destruct (_get_headers E c w) as [[[h|e1] c1] w1].
  - destruct (server E (length (sent w1)) (revoke_request c1 h))
      as [r|] eqn:Hreply; [discriminate|].
    intros Heq. inversion Heq; subst. split; [reflexivity|].
    right. exists h, w1. auto.
  - intros Heq. inversion Heq; subst. split; [reflexivity|].
    left. reflexivity.
Qed.

Lemma logout_raise_clears_nothing_witness :
  truthy (refresh_token client1) = true
  /\ (_get_headers rejecting client1 world1
      = (Raise (PyException "Token refresh failed: invalid token"), client1,
         after_send (refresh_request client1) (after_tick world1))
      \/ exists (h : list (string * string)) (w1 : world),
           _get_headers rejecting client1 world1 = (Return h, client1, w1)
           /\ server rejecting (length (sent w1)) (revoke_request client1 h)
              = Unreachable
           /\ PyException "Token refresh failed: invalid token"
              = ConnectionError
           /\ after_send (refresh_request client1) (after_tick world1)
              = after_send (revoke_request client1 h) w1).
Proof.
  apply (logout_raise_clears_nothing rejecting client1 world1
           (PyException "Token refresh failed: invalid token") client1
           (after_send (refresh_request client1) (after_tick world1))).
  vm_compute. reflexivity.
Defined.

(** ** Overlapping callers, in general *)

(** X6. Nothing in _ensure_authenticated keeps a second caller out while
    the first waits for the answer to its refresh request: whenever a
    refresh token is held and both callers find the access token absent or
    expired at their own check, both send a refresh request with the same
    refresh token, the first caller's request still unanswered, and no
    field has changed meanwhile. *)
Theorem overlapping_callers_both_refresh (E : env) (c : client) (w : world) :
  truthy (refresh_token c) = true ->
  live E c w = false ->
  live E c (checked c w) = false ->
  let s := schedule E [First; Second] (two_callers c w) in
  first s = Blocked (length (sent w)) (refresh_request c)
  /\ second s = Blocked (S (length (sent w))) (refresh_request c)
  /\ shared s = c
  /\ sent (outside s)
     = refresh_request c :: refresh_request c :: sent w.
Proof.
  intros Hheld Hfirst Hsecond.
  rewrite (overlapping_steps E c w Hheld Hfirst Hsecond).
  cbn [first second shared outside after_send sent].
  rewrite checked_sent. cbn [after_send sent]. rewrite checked_sent.
  repeat split; reflexivity.
Qed.

Lemma overlapping_callers_both_refresh_witness :
  let s := schedule rejecting [First; Second] (two_callers client1 world1) in
  first s = Blocked (length (sent world1)) (refresh_request client1)
  /\ second s = Blocked (S (length (sent world1))) (refresh_request client1)
  /\ shared s = client1
  /\ sent (outside s)
     = refresh_request client1 :: refresh_request client1 :: sent world1.
Proof.
  apply (overlapping_callers_both_refresh rejecting client1 world1).
  - reflexivity.
  - vm_compute. reflexivity.
  - vm_compute. reflexivity.
Defined.

(** ** Where the requests go, over any sequence of calls *)

Lemma token_effect_base_url (E : env) (c : client) (w : world) (c' : client)
    (w' : world) :
  token_effect E c w c' w' -> base_url c' = base_url c.
Proof.
  intros [->|(req & r & d & _ & _ & Hg)]; [reflexivity|].
  destruct Hg as [[-> _]|(_ & [->|(e & f & n & _ & _ & _ & ->)])];
    reflexivity.
Qed.

Lemma exec_endpoints (E : env) (o : op) (c : client) (w : world)
    (res : result unit) (c' : client) (w' : world) :
  exec o E c w = (res, c', w') ->
  base_url c' = base_url c
  /\ exists new : list request,
       sent w' = (new ++ sent w)%list
       /\ (length new <= 2)%nat
       /\ forall req, In req new -> auth_endpoint (base_url c) req.
Proof.
  intros Hrun.
  assert (Hbase : base_url c' = base_url c).
  { destruct (exec_effect _ _ _ _ _ _ _ Hrun) as (_ & _ & [Hc|(c1 & -> & Hc)]);
      [|cbn [cleared base_url]]; eapply token_effect_base_url; exact Hc. }
  split; [exact Hbase|].
  assert (Hlogin : forall u p t,
            auth_endpoint (base_url c) (login_request c u p t))
    by (intros; split; [reflexivity|left; reflexivity]).
  assert (Hrefresh : auth_endpoint (base_url c) (refresh_request c))
    by (split; [reflexivity|right; left; reflexivity]).
  assert (Hshape : forall w1 : world,
            sent w1 = sent w \/ sent w1 = refresh_request c :: sent w ->
            exists new : list request,
              sent w1 = (new ++ sent w)%list
              /\ (length new <= 1)%nat
              /\ forall req, In req new -> auth_endpoint (base_url c) req).
  { intros w1 [Hs|Hs].
    - exists []. split; [exact Hs|]. split; [cbn; lia|]. intros req [].
    - exists [refresh_request c]. split; [exact Hs|]. split; [cbn; lia|].
      intros req [<-|[]]. exact Hrefresh. }
  assert (Hheaders : forall res1 c1 w1,
            _get_headers E c w = (res1, c1, w1) ->
            sent w1 = sent w \/ sent w1 = refresh_request c :: sent w).
  { intros res1 c1 w1 Hh. apply get_headers_effect in Hh.
    destruct Hh as (_ & [(Hs & _)|(Hs & _)]); auto. }
  destruct o as [u p t| | |]; cbn [exec] in Hrun.
  - exists [login_request c u p t]. apply login_effect in Hrun.
    destruct Hrun as (_ & Hs & _).
    split; [exact Hs|split; [cbn; lia|intros req [<-|[]]; apply Hlogin]].
  - apply refresh_effect in Hrun.
    destruct Hrun as (_ & [(Hs & _)|(Hs & _)]);
      destruct (Hshape w') as (new & Hs' & Hlen & Hall); auto;
      exists new; (split; [exact Hs'|split; [lia|exact Hall]]).
  - unfold bind in Hrun.
    destruct (_get_headers E c w) as [[[h|e] c1] w1] eqn:Hh;
      destruct (Hshape w1 (Hheaders _ _ _ eq_refl))
        as (new & Hs & Hlen & Hall);
      inversion Hrun; subst; exists new;
      (split; [exact Hs|split; [lia|exact Hall]]).
  - rewrite logout_outcome in Hrun.
    destruct (negb (truthy (refresh_token c))).
    { inversion Hrun; subst. exists []. split; [reflexivity|].
      split; [cbn; lia|]. intros req []. }
    destruct (_get_headers E c w) as [[[h|e] c1] w1] eqn:Hh;
      destruct (Hshape w1 (Hheaders _ _ _ eq_refl))
        as (new & Hs & Hlen & Hall);
      pose proof (get_headers_base_url _ _ _ _ _ _ Hh) as Hb.
    + assert (Hrevoke : auth_endpoint (base_url c) (revoke_request c1 h))
        by (split; [reflexivity|right; right; cbn [revoke_request r_url];
            rewrite Hb; reflexivity]).
      exists (revoke_request c1 h :: new).
      assert (Hsent : sent w' = (revoke_request c1 h :: sent w1)%list).
      { destruct (server E _ _) as [r|]; inversion Hrun; subst;
          [destruct (status_code r =? 200)|]; reflexivity. }
      split; [rewrite Hsent, Hs; reflexivity|].
      split; [cbn [length]; lia|].
      intros req [<-|Hin]; [exact Hrevoke|exact (Hall req Hin)].
    + inversion Hrun; subst. exists new.
      split; [exact Hs|split; [lia|exact Hall]].
Qed.

(** X7. Whatever sequence of login, refresh_access_token, _get_headers and
    logout is called, and whatever the server answers, base_url stays what
    __init__ set, requests are only ever added, and every request sent is
    a POST to base_url followed by /auth/login, /auth/token/refresh or
    /auth/token/revoke. *)
Theorem requests_stay_on_base_url (E : env) (ops : list op) :
  forall (c : client) (w : world) (c' : client) (w' : world),
    run E ops c w = (c', w') ->
    base_url c' = base_url c
    /\ exists new : list request,
         sent w' = (new ++ sent w)%list
         /\ (length new <= 2 * length ops)%nat
         /\ forall req, In req new -> auth_endpoint (base_url c) req.
Proof.
  induction ops as [|o ops IH]; intros c w c' w' Hrun.
  - cbn [run] in Hrun. inversion Hrun; subst. split; [reflexivity|].
    exists []. split; [reflexivity|]. split; [cbn; lia|]. intros req [].
  - cbn [run] in Hrun.
    destruct (exec o E c w) as [[res c1] w1] eqn:Hexec.
    destruct (exec_endpoints _ _ _ _ _ _ _ Hexec)
      as (Hb1 & new1 & Hs1 & Hlen1 & Hall1).
    destruct (IH _ _ _ _ Hrun) as (Hb2 & new2 & Hs2 & Hlen2 & Hall2).
    split; [rewrite Hb2; exact Hb1|].
    exists (new2 ++ new1)%list.
    split; [rewrite Hs2, Hs1; apply app_assoc|].
    split; [rewrite length_app; cbn [length]; lia|].
    intros req Hin. apply in_app_or in Hin. destruct Hin as [Hin|Hin].
    + rewrite <- Hb1. exact (Hall2 req Hin).
    + exact (Hall1 req Hin).
Qed.

Lemma requests_stay_on_base_url_witness :
  base_url (cleared client2) = base_url client0
  /\ exists new : list request,
       sent (mkWorld 4
               [revoke_request client2 (bearer_headers client2);
                refresh_request client1;
                login_request client0 "testuser" "password123" "my-tenant"]
               ("✅ Logged out successfully"
                  :: stdout (refreshed_world client1 world1)))
       = (new ++ sent world0)%list
       /\ (length new
           <= 2 * length [Login "testuser" "password123" "my-tenant";
                          EnsureValid; Logout])%nat
       /\ forall req, In req new -> auth_endpoint (base_url client0) req.
Proof.
  apply (requests_stay_on_base_url scenario
           [Login "testuser" "password123" "my-tenant"; EnsureValid; Logout]
           client0 world0).
  vm_compute. reflexivity.
Defined.
